(** * rag_chatbot: retrieval, reranking, access control and the role cache

    A shallow embedding of the retrieval core of the repository:
    - [src/handlers/user_role_handler.py]   (module [Identity])
    - [src/database/services/collection_management_service.py]
                                            (module [Collections])
    - [src/helpers/qdrant_connection_helper.py] (module [Qdrant])
    - [src/handlers/retrieval_handler.py]   (module [Retrieval])
    - [src/handlers/rerank_handler.py]      (module [Rerank])
    - [src/handlers/multi_collection_retriever.py] (module [MultiCollection])

    Floats (scores, [time.time()]) are rationals [Q]; Python dicts whose
    order is never observed are [gmap]s, dicts whose insertion order is
    observed are association lists; exceptions are the [Raise] branch of
    [result]. *)

From Stdlib Require Import ZArith QArith List String Ascii Bool Lia Lqa Sorted.
From stdpp Require Import base gmap strings list fin_maps pretty sorting.

Local Open Scope string_scope.

(** ** Python primitives used by the handlers *)
Module Py.

Inductive exn : Type :=
| KeyError (key : string)
| IndexError
| TypeError
| ValueError
| Exception (msg : string).

Inductive result (A : Type) : Type :=
| Ok (a : A)
| Raise (e : exn).
Arguments Ok {A} a.
Arguments Raise {A} e.

Definition bind {A B} (r : result A) (k : A -> result B) : result B :=
  match r with
  | Ok a => k a
  | Raise e => Raise e
  end.

(** [try: body except Exception: return dflt] *)
Definition try_except {A} (body : result A) (dflt : A) : A :=
  match body with
  | Ok a => a
  | Raise _ => dflt
  end.

(** [for x in l: ...] with a body that may raise; the first exception
    leaves the loop. *)
Fixpoint for_each {S A} (body : S -> A -> result S) (s : S) (l : list A)
  : result S :=
  match l with
  | [] => Ok s
  | x :: l' => bind (body s x) (fun s' => for_each body s' l')
  end.

(** [[f(x) for x in l]] with an [f] that may raise. *)
Fixpoint map_result {A B} (f : A -> result B) (l : list A)
  : result (list B) :=
  match l with
  | [] => Ok []
  | x :: l' =>
      bind (f x) (fun y => bind (map_result f l') (fun ys => Ok (y :: ys)))
  end.

(** [l[i]] for a non-negative [i]. *)
Definition list_getitem {A} (l : list A) (i : nat) : result A :=
  match l !! i with
  | Some a => Ok a
  | None => Raise IndexError
  end.

(** [not l] for a list. *)
Definition is_empty {A} (l : list A) : bool :=
  match l with
  | [] => true
  | _ :: _ => false
  end.

(** Truthiness of a [str]: only the empty string is falsy. *)
Definition truthy (s : string) : bool :=
  match s with
  | EmptyString => false
  | String _ _ => true
  end.

(** Truthiness of an [Optional[str]]. *)
Definition truthy_opt (o : option string) : bool :=
  match o with
  | None => false
  | Some s => truthy s
  end.

(** The value of an [Optional[str]] argument once it is known truthy. *)
Definition the (o : option string) : string := default "" o.

(** [l[:k]]: a negative [k] counts from the end. *)
Definition slice_to {A} (k : Z) (l : list A) : list A :=
  if (0 <=? k)%Z then take (Z.to_nat k) l
  else take (Z.to_nat (Z.of_nat (length l) + k)) l.

(** [sorted(l, key=..., reverse=True)]: a stable sort into descending
    key order; [lt x y] is [key(x) < key(y)].  Elements with equal keys
    keep their input order. *)
Section Sorted.
Context {A : Type} (lt : A -> A -> bool).

Fixpoint insert_desc (x : A) (l : list A) : list A :=
  match l with
  | [] => [x]
  | y :: l' => if lt x y then y :: insert_desc x l' else x :: y :: l'
  end.

Definition sorted_reverse (l : list A) : list A :=
  foldr insert_desc [] l.
End Sorted.

(** A [str] is held as its UTF-8 bytes.  [str.strip()] removes the code
    points Python counts as whitespace; in UTF-8 they take one byte
    (U+0009..U+000D, U+001C..U+0020), two (U+0085 and U+00A0, after the
    lead byte C2) or three (U+1680; U+2000..U+200A, U+2028, U+2029,
    U+202F and U+205F, after the lead byte E2; U+3000). *)
Definition is_space (c : ascii) : bool :=
  let n := nat_of_ascii c in
  ((9 <=? n)%nat && (n <=? 13)%nat) || ((28 <=? n)%nat && (n <=? 32)%nat).

Definition is_space2 (c1 c2 : ascii) : bool :=
  let n2 := nat_of_ascii c2 in
  (nat_of_ascii c1 =? 194)%nat && ((n2 =? 133)%nat || (n2 =? 160)%nat).

Definition is_space3 (c1 c2 c3 : ascii) : bool :=
  let n1 := nat_of_ascii c1 in
  let n2 := nat_of_ascii c2 in
  let n3 := nat_of_ascii c3 in
  ((n1 =? 225)%nat && (n2 =? 154)%nat && (n3 =? 128)%nat)
  || ((n1 =? 226)%nat && (n2 =? 128)%nat
      && (((128 <=? n3)%nat && (n3 <=? 138)%nat)
          || (n3 =? 168)%nat || (n3 =? 169)%nat || (n3 =? 175)%nat))
  || ((n1 =? 226)%nat && (n2 =? 129)%nat && (n3 =? 159)%nat)
  || ((n1 =? 227)%nat && (n2 =? 128)%nat && (n3 =? 128)%nat).

(** Removes the whitespace code points at the front; [sp2] and [sp3]
    recognise the two- and three-byte ones in the order the bytes are
    met. *)
Fixpoint strip_front (sp2 : ascii -> ascii -> bool)
    (sp3 : ascii -> ascii -> ascii -> bool) (s : string) : string :=
  match s with
  | EmptyString => EmptyString
  | String c1 s1 =>
      if is_space c1 then strip_front sp2 sp3 s1
      else
        match s1 with
        | EmptyString => s
        | String c2 s2 =>
            if sp2 c1 c2 then strip_front sp2 sp3 s2
            else
              match s2 with
              | EmptyString => s
              | String c3 s3 =>
                  if sp3 c1 c2 c3 then strip_front sp2 sp3 s3 else s
              end
        end
  end.

Definition lstrip (s : string) : string := strip_front is_space2 is_space3 s.

(** The same from the back: on the reversed string the bytes of a code
    point are met last byte first. *)
Definition rstrip (s : string) : string :=
  String.rev
    (strip_front (fun c2 c1 => is_space2 c1 c2)
                 (fun c3 c2 c1 => is_space3 c1 c2 c3)
                 (String.rev s)).

Definition strip (s : string) : string := rstrip (lstrip s).

(** [a < b] on floats. *)
Definition Qltb (a b : Q) : bool := negb (Qle_bool b a).

(** An insertion-ordered [dict]: assignment to an existing key keeps the
    key's position, a new key goes last. *)
Section Dict.
Context {K V : Type} `{EqDecision K}.

Fixpoint dict_get (k : K) (d : list (K * V)) : option V :=
  match d with
  | [] => None
  | (k', v) :: d' => if decide (k = k') then Some v else dict_get k d'
  end.

Fixpoint dict_set (k : K) (v : V) (d : list (K * V)) : list (K * V) :=
  match d with
  | [] => [(k, v)]
  | (k', v') :: d' =>
      if decide (k = k') then (k, v) :: d' else (k', v') :: dict_set k v d'
  end.
End Dict.

End Py.

Notation "'let*' x ':=' r 'in' k" := (Py.bind r (fun x => k))
  (at level 10, x name, r at level 100, k at level 200,
   format "'[v' 'let*'  x  ':='  r  'in' '/' k ']'").

Import Py.

(** ** [src/handlers/user_role_handler.py]: the role cache *)
Module Identity.

(** *** The identity store behind [mysql_connection] *)
Record UserRow := {
  u_Id : string; u_Code : string; u_Email : string;
  u_Firstname : string; u_Lastname : string; u_Phone : string;
  u_Gender : string; u_Avatar : string;
  u_DefaultOrganizationId : option string;
  u_Status : Z }.

Record OrganizationUserRow := {
  ou_UserId : string; ou_OrganizationId : string;
  ou_Role : Z; ou_Status : Z }.

Record OrganizationRow := {
  o_Id : string; o_Name : string; o_Code : string; o_Status : Z }.

Record MySQL := {
  User : list UserRow;
  OrganizationUser : list OrganizationUserRow;
  Organization : list OrganizationRow;
  connected : bool }.

(** The statements the service sends through [execute_query]: the user
    row, the membership join, the direct role statement and the count
    of [verify_user_exists]. *)
Inductive Sql : Type :=
| SelectUser (user_id : string)
| SelectUserRoles (user_id : string)
| SelectRole (user_id organization_id : string)
| CountUser (user_id : string).

(** Row of the membership join. *)
Record RoleRow := {
  rr_OrganizationId : string; rr_organization_name : string;
  rr_organization_code : string; rr_role_id : Z }.

(** [... FROM User u WHERE u.Id = %s AND u.Status = 10] *)
Definition user_query (db : MySQL) (user_id : string) : list UserRow :=
  filter (fun u => u_Id u = user_id /\ u_Status u = 10%Z) (User db).

(** [... FROM OrganizationUser ou JOIN Organization o
     ON ou.OrganizationId = o.Id
     WHERE ou.UserId = %s AND ou.Status = 10 AND o.Status = 10] *)
Definition role_query (db : MySQL) (user_id : string) : list RoleRow :=
  flat_map
    (fun ou =>
       if decide (ou_UserId ou = user_id /\ ou_Status ou = 10%Z) then
         map (fun o => {| rr_OrganizationId := ou_OrganizationId ou;
                          rr_organization_name := o_Name o;
                          rr_organization_code := o_Code o;
                          rr_role_id := ou_Role ou |})
             (filter (fun o => o_Id o = ou_OrganizationId ou
                               /\ o_Status o = 10%Z)
                     (Organization db))
       else [])
    (OrganizationUser db).

(** [SELECT Role FROM OrganizationUser
     WHERE UserId = %s AND OrganizationId = %s AND Status = 10] *)
Definition direct_role_query (db : MySQL) (user_id organization_id : string)
  : list Z :=
  map ou_Role
      (filter (fun ou => ou_UserId ou = user_id
                         /\ ou_OrganizationId ou = organization_id
                         /\ ou_Status ou = 10%Z)
              (OrganizationUser db)).

(** *** Cached values *)
Record OrganizationInfo := {
  oi_organization_id : string; oi_name : string;
  oi_code : string; oi_role : string }.

Record Profile := {
  p_user_id : string; p_code : string; p_email : string;
  p_first_name : string; p_last_name : string; p_full_name : string;
  p_phone : string; p_gender : string; p_avatar : string;
  p_default_organization_id : option string;
  p_organizations : list OrganizationInfo;
  p_roles : gmap string string }.

(** The dicts stored in [_user_cache]: the full result of
    [get_user_info_with_roles] (with ["exists": True]) or the bare
    [{"exists": exists}] that [verify_user_exists] stores. *)
Inductive UserInfo : Type :=
| FullInfo (p : Profile)
| ExistsOnly (exists_ : bool).

Record UserRoleService := {
  _cache_ttl : Q;
  _role_cache : gmap (string * string) (option string * Q);
  _user_cache : gmap string (UserInfo * Q);
  _org_cache : gmap string (bool * Q) }.

(** [UserRoleService()] *)
Definition init : UserRoleService :=
  {| _cache_ttl := 300; _role_cache := ∅; _user_cache := ∅;
     _org_cache := ∅ |}.

Definition with_role_cache (self : UserRoleService) rc : UserRoleService :=
  {| _cache_ttl := _cache_ttl self; _role_cache := rc;
     _user_cache := _user_cache self; _org_cache := _org_cache self |}.
Definition with_user_cache (self : UserRoleService) uc : UserRoleService :=
  {| _cache_ttl := _cache_ttl self; _role_cache := _role_cache self;
     _user_cache := uc; _org_cache := _org_cache self |}.
Definition with_org_cache (self : UserRoleService) oc : UserRoleService :=
  {| _cache_ttl := _cache_ttl self; _role_cache := _role_cache self;
     _user_cache := _user_cache self; _org_cache := oc |}.

(** The state a call runs in: the service object and the log of the
    statements sent to the store so far.  [time.time()] is read as one
    value [now] per call. *)
Definition State : Type := UserRoleService * list Sql.

(** [self.db.execute_query(...)]: logs the statement; raises when the
    store cannot be reached. *)
Definition execute_query {R} (db : MySQL) (q : Sql) (rows : list R)
    (st : State) : result (list R) * State :=
  (if connected db then Ok rows else Raise (Exception "mysql"),
   (st.1, (st.2 ++ [q])%list)).

Definition _is_cache_valid (self : UserRoleService) (now timestamp : Q)
  : bool :=
  Qltb (now - timestamp) (_cache_ttl self).

Definition role_name (role_id : Z) : string :=
  if (role_id =? 10)%Z then "ADMIN"
  else if (role_id =? 90)%Z then "USER"
  else "ROLE_" +:+ pretty role_id.

(** Body of [for row in role_results] in [get_user_info_with_roles]. *)
Definition role_row_step (now : Q) (user_id : string)
    (acc : gmap string string * list OrganizationInfo * UserRoleService)
    (row : RoleRow)
  : gmap string string * list OrganizationInfo * UserRoleService :=
  let '(roles, organizations, self) := acc in
  let org_id := rr_OrganizationId row in
  let role := role_name (rr_role_id row) in
  let self := with_role_cache self
                (<[(user_id, org_id) := (Some role, now)]> (_role_cache self)) in
  let self := with_org_cache self
                (<[org_id := (true, now)]> (_org_cache self)) in
  (<[org_id := role]> roles,
   (organizations ++ [ {| oi_organization_id := org_id;
                          oi_name := rr_organization_name row;
                          oi_code := rr_organization_code row;
                          oi_role := role |} ])%list,
   self).

(** [if user_id in self._user_cache: cached_info, timestamp = ...;
     if self._is_cache_valid(timestamp): return cached_info] *)
Definition cached_user_info (self : UserRoleService) (now : Q)
    (user_id : string) : option UserInfo :=
  match _user_cache self !! user_id with
  | Some (cached_info, timestamp) =>
      if _is_cache_valid self now timestamp then Some cached_info else None
  | None => None
  end.

(** [if cache_key in self._role_cache: role, timestamp = ...;
     if self._is_cache_valid(timestamp): return role] *)
Definition cached_role (self : UserRoleService) (now : Q)
    (cache_key : string * string) : option (option string) :=
  match _role_cache self !! cache_key with
  | Some (role, timestamp) =>
      if _is_cache_valid self now timestamp then Some role else None
  | None => None
  end.

Definition get_user_info_with_roles (db : MySQL) (now : Q) (user_id : string)
    (st : State) : option UserInfo * State :=
  match cached_user_info st.1 now user_id with
  | Some cached_info => (Some cached_info, st)
  | None =>
      let '(user_result, st) :=
        execute_query db (SelectUser user_id) (user_query db user_id) st in
      match user_result with
      | Raise _ => (None, st)
      | Ok [] => (None, st)
      | Ok (user_info :: _) =>
          let '(role_results, st) :=
            execute_query db (SelectUserRoles user_id)
                          (role_query db user_id) st in
          match role_results with
          | Raise _ => (None, st)
          | Ok role_results =>
              let '(roles, organizations, self) :=
                foldl (role_row_step now user_id) (∅, [], st.1)
                      role_results in
              let result_ := FullInfo {|
                p_user_id := u_Id user_info;
                p_code := u_Code user_info;
                p_email := u_Email user_info;
                p_first_name := u_Firstname user_info;
                p_last_name := u_Lastname user_info;
                p_full_name :=
                  strip (u_Firstname user_info +:+ " " +:+ u_Lastname user_info);
                p_phone := u_Phone user_info;
                p_gender := u_Gender user_info;
                p_avatar := u_Avatar user_info;
                p_default_organization_id :=
                  match u_DefaultOrganizationId user_info with
                  | Some d => if truthy d then Some d else None
                  | None => None
                  end;
                p_organizations := organizations;
                p_roles := roles |} in
              let self := with_user_cache self
                            (<[user_id := (result_, now)]> (_user_cache self)) in
              (Some result_, (self, st.2))
          end
      end
  end.

(** [user_info and "roles" in user_info] followed by
    [user_info["roles"]]. *)
Definition roles_of (user_info : option UserInfo)
  : option (gmap string string) :=
  match user_info with
  | Some (FullInfo p) => Some (p_roles p)
  | Some (ExistsOnly _) => None
  | None => None
  end.

Definition get_user_role (db : MySQL) (now : Q)
    (user_id organization_id : string) (st : State)
  : option string * State :=
  let cache_key := (user_id, organization_id) in
  match cached_role st.1 now cache_key with
  | Some role => (role, st)
  | None =>
      let '(user_info, st) := get_user_info_with_roles db now user_id st in
      match roles_of user_info with
      | Some roles => (roles !! organization_id, st)
      | None =>
          let '(result_, st) :=
            execute_query db (SelectRole user_id organization_id)
                          (direct_role_query db user_id organization_id) st in
          match result_ with
          | Raise _ => (None, st)
          | Ok [] =>
              (None,
               (with_role_cache st.1
                  (<[cache_key := (None, now)]> (_role_cache st.1)), st.2))
          | Ok (role_id :: _) =>
              let role := role_name role_id in
              (Some role,
               (with_role_cache st.1
                  (<[cache_key := (Some role, now)]> (_role_cache st.1)),
                st.2))
          end
      end
  end.

Definition verify_access (db : MySQL) (now : Q)
    (user_id organization_id : string) (required_role : string)
    (st : State) : bool * State :=
  let '(role, st) := get_user_role db now user_id organization_id st in
  match role with
  | None => (false, st)
  | Some role =>
      if bool_decide (required_role = "ADMIN") then
        (bool_decide (role = "ADMIN"), st)
      else (bool_decide (role = "USER") || bool_decide (role = "ADMIN"), st)
  end.

(** [user_info.get("exists", False)] *)
Definition get_exists (user_info : UserInfo) : bool :=
  match user_info with
  | FullInfo _ => true
  | ExistsOnly exists_ => exists_
  end.

Definition verify_user_exists (db : MySQL) (now : Q) (user_id : string)
    (st : State) : bool * State :=
  match cached_user_info st.1 now user_id with
  | Some user_info => (get_exists user_info, st)
  | None =>
      let '(user_info, st) := get_user_info_with_roles db now user_id st in
      match user_info with
      | Some _ => (true, st)
      | None =>
          let '(result_, st) :=
            execute_query db (CountUser user_id)
                          [Z.of_nat (length (user_query db user_id))] st in
          match result_ with
          | Raise _ => (false, st)
          | Ok [] => (false, st)
          | Ok (count :: _) =>
              let exists_ := (0 <? count)%Z in
              (exists_,
               (with_user_cache st.1
                  (<[user_id := (ExistsOnly exists_, now)]> (_user_cache st.1)),
                st.2))
          end
      end
  end.

Definition is_admin (db : MySQL) (now : Q) (user_id organization_id : string)
    (st : State) : bool * State :=
  let '(role, st) := get_user_role db now user_id organization_id st in
  (bool_decide (role = Some "ADMIN"), st).

(** [keys_to_delete = [k for k in cache.keys() if p(k)]] followed by
    [for key in keys_to_delete: del cache[key]]. *)
Definition delete_keys {V} (p : string * string -> bool)
    (cache : gmap (string * string) V) : gmap (string * string) V :=
  let keys_to_delete := filter (fun k => p k = true) (map fst (map_to_list cache)) in
  foldl (fun m key => delete key m) cache keys_to_delete.

Definition clear_cache (user_id organization_id : option string)
    (self : UserRoleService) : UserRoleService :=
  if truthy_opt user_id && truthy_opt organization_id then
    with_role_cache self
      (delete (the user_id, the organization_id) (_role_cache self))
  else if truthy_opt user_id then
    let self := with_user_cache self
                  (delete (the user_id) (_user_cache self)) in
    with_role_cache self
      (delete_keys (fun k => bool_decide (k.1 = the user_id))
                   (_role_cache self))
  else if truthy_opt organization_id then
    let self := with_org_cache self
                  (delete (the organization_id) (_org_cache self)) in
    with_role_cache self
      (delete_keys (fun k => bool_decide (k.2 = the organization_id))
                   (_role_cache self))
  else
    with_org_cache (with_user_cache (with_role_cache self ∅) ∅) ∅.

End Identity.

(** ** [src/database/services/collection_management_service.py] *)
Module Collections.

(** Row of [vectorstore_collection]. *)
Record Collection := {
  id : string;
  user_id : string;
  collection_name : string;
  organization_id : option string;
  is_personal : bool }.

(** The relational store behind [db.session_scope()]. *)
Record Postgres := {
  vectorstore_collection : list Collection;
  available : bool }.

(** [with db.session_scope() as session]: raises when the store cannot
    be reached. *)
Definition session_scope (db : Postgres) : result (list Collection) :=
  if available db then Ok (vectorstore_collection db)
  else Raise (Exception "postgres").

(** [session.query(Collection).filter_by(collection_name=...).first()] *)
Definition first_by_name (session : list Collection) (name : string)
  : option Collection :=
  head (filter (fun c => collection_name c = name) session).

(** [is_personal] is accepted and never read, as in the source. *)
Definition check_collection_permission
    (db : Postgres) (mysql : Identity.MySQL) (now : Q)
    (user_id_ : string) (collection_name_ : string)
    (organization_id_ : option string) (is_personal_ : bool)
    (required_permission : string) : bool :=
  try_except
    (let* session := session_scope db in
     match first_by_name session collection_name_ with
     | None => Ok false
     | Some collection =>
         if is_personal collection then
           Ok (bool_decide (user_id collection = user_id_))
         else if truthy_opt (organization_id collection)
                 && bool_decide (organization_id collection = organization_id_)
         then
           if bool_decide (required_permission = "read") then Ok true
           else if bool_decide (user_id collection = user_id_) then Ok true
           else
             Ok (Identity.is_admin mysql now user_id_
                   (the organization_id_) (Identity.init, [])).1
         else Ok false
     end)
    false.

(** The dicts built by [get_user_collections]; a personal entry has no
    ["organization_id"] key. *)
Record CollectionInfo := {
  ci_id : string;
  ci_collection_name : string;
  ci_is_personal : bool;
  ci_organization_id : option string;
  ci_user_id : string }.

Definition get_user_collections (db : Postgres) (user_id_ : string)
    (organization_id_ : option string)
    (include_personal include_organizational : bool)
  : list CollectionInfo :=
  try_except
    (let* session := session_scope db in
     let collections : list CollectionInfo := [] in
     let collections :=
       if include_personal then
         (collections ++
          map (fun c => {| ci_id := id c;
                           ci_collection_name := collection_name c;
                           ci_is_personal := true;
                           ci_organization_id := None;
                           ci_user_id := user_id_ |})
              (filter (fun c => user_id c = user_id_ /\ is_personal c = true)
                      session))%list
       else collections in
     let collections :=
       if include_organizational && truthy_opt organization_id_ then
         (collections ++
          map (fun c => {| ci_id := id c;
                           ci_collection_name := collection_name c;
                           ci_is_personal := false;
                           ci_organization_id := organization_id_;
                           ci_user_id := user_id c |})
              (filter (fun c => organization_id c = organization_id_
                                /\ is_personal c = false)
                      session))%list
       else collections in
     Ok collections)
    [].

(** [create_collection]; [uuid.uuid4()] is supplied as [fresh_id].  An
    exception of the session is logged and raised again. *)
Definition create_collection (db : Postgres) (fresh_id : string)
    (collection_name_ user_id_ : string) (organization_id_ : option string)
    (is_personal_ : bool) : result string * Postgres :=
  match session_scope db with
  | Raise e => (Raise e, db)
  | Ok session =>
      let existing :=
        head (filter (fun c => collection_name c = collection_name_
                               /\ is_personal c = is_personal_) session) in
      match existing with
      | Some existing => (Ok (id existing), db)
      | None =>
          let new_collection :=
            {| id := fresh_id;
               user_id := user_id_;
               collection_name := collection_name_;
               organization_id :=
                 if is_personal_ then None else organization_id_;
               is_personal := is_personal_ |} in
          (Ok fresh_id,
           {| vectorstore_collection := (session ++ [new_collection])%list;
              available := available db |})
      end
  end.

(** The rows [delete_collection] selects: by name, then personal rows
    when [is_personal], else the organization's non-personal rows when an
    [organization_id] is given, else every row of the name. *)
Definition delete_selects (collection_name_ : string)
    (organization_id_ : option string) (is_personal_ : bool)
    (c : Collection) : bool :=
  bool_decide (collection_name c = collection_name_)
  && (if is_personal_ then bool_decide (is_personal c = true)
      else if truthy_opt organization_id_ then
        bool_decide (organization_id c = organization_id_)
        && bool_decide (is_personal c = false)
      else true).

Definition delete_collection (db : Postgres) (collection_name_ : string)
    (organization_id_ : option string) (is_personal_ : bool)
  : bool * Postgres :=
  match session_scope db with
  | Raise _ => (false, db)
  | Ok session =>
      let selects :=
        delete_selects collection_name_ organization_id_ is_personal_ in
      let result_ := length (filter (fun c => selects c = true) session) in
      ((0 <? result_)%nat,
       {| vectorstore_collection :=
            filter (fun c => selects c = false) session;
          available := available db |})
  end.

End Collections.

(** ** [src/helpers/qdrant_connection_helper.py] *)
Module Qdrant.

(** [Document.metadata]: a dict with these keys, each possibly absent. *)
Record Metadata := {
  document_name : option string;
  headers : option string;
  document_id : option string;
  index : option Z;
  organization_id : option string;
  source_collection : option string;
  is_personal : option bool }.

Record Document := {
  page_content : string;
  metadata : Metadata }.

#[global] Instance Metadata_eq_dec : EqDecision Metadata.
Proof. solve_decision. Defined.
#[global] Instance Document_eq_dec : EqDecision Document.
Proof. solve_decision. Defined.

(** The vector index, as [self.client] and the embedding models answer:
    - [collection_exists(collection_name=...)];
    - [get_collection(...).points_count];
    - the hybrid query of [hybrid_search]: the three query embeddings,
      the dense and sparse prefetch and the late-interaction ranking
      with the given [limit], as documents;
    - the section query of [query_headers]: the [page_content] of the
      points matching [document_name] and [headers], ordered by
      [metadata.index], at most [limit] of them.
    Each may raise. *)
Record QdrantClient := {
  collection_exists : string -> result bool;
  points_count : string -> result Z;
  query_points_hybrid :
    option string -> string -> Z -> result (list Document);
  query_points_section :
    string -> string -> string -> Z -> result (list string) }.

Definition hybrid_search (self : QdrantClient) (query : option string)
    (collection_name : string) : result (list Document) :=
  let* ex := collection_exists self collection_name in
  if negb ex then
    Raise (Exception ("Collection " +:+ collection_name +:+ " does not exist"))
  else query_points_hybrid self query collection_name 20.

(** [d[key]] on the metadata dict. *)
Definition getitem {A} (key : string) (v : option A) : result A :=
  match v with
  | Some a => Ok a
  | None => Raise (KeyError key)
  end.

(** Value of [processed_documents]. *)
Record Processed := {
  document : Document;
  score : Z }.

(** Body of [for idx, doc in enumerate(documents)] in [query_headers].
    [processed_documents] is keyed by [doc.metadata['headers']]. *)
Definition query_headers_step (self : QdrantClient) (collection_name : string)
    (vectors_count : Z)
    (processed_documents : list (string * Processed)) (doc : Document)
  : result (list (string * Processed)) :=
  let* h := getitem "headers" (headers (metadata doc)) in
  match dict_get h processed_documents with
  | Some entry =>
      Ok (dict_set h {| document := document entry;
                        score := (score entry + 1)%Z |}
                   processed_documents)
  | None =>
      let* dn := getitem "document_name" (document_name (metadata doc)) in
      let* points :=
        query_points_section self collection_name dn h vectors_count in
      let page_content_ := foldr String.append "" points in
      let* did := getitem "document_id" (document_id (metadata doc)) in
      let metadata_ := {| document_name := Some dn;
                          headers := Some h;
                          document_id := Some did;
                          index := None;
                          organization_id := None;
                          source_collection := None;
                          is_personal := None |} in
      Ok (dict_set h {| document := {| page_content := page_content_;
                                       metadata := metadata_ |};
                        score := 1 |}
                   processed_documents)
  end.

(** [processed_documents] when the loop ends. *)
Definition process_documents (self : QdrantClient)
    (documents : list Document) (collection_name : string)
  : result (list (string * Processed)) :=
  let* vectors_count := points_count self collection_name in
  for_each (query_headers_step self collection_name vectors_count)
           [] documents.

Definition query_headers (self : QdrantClient)
    (documents : list Document) (collection_name : string)
  : result (list Document) :=
  let* processed_documents :=
    process_documents self documents collection_name in
  let sorted_documents :=
    sorted_reverse (fun a b => (score a.2 <? score b.2)%Z)
                   processed_documents in
  Ok (map (fun item => document item.2) sorted_documents).

(** Vocabulary for the grouping done by [query_headers]: the headers of
    the chunks in input order, a value's number of occurrences, and the
    distinct values in order of first occurrence. *)
Definition headers_of (documents : list Document) : list string :=
  omap (fun doc => headers (metadata doc)) documents.

Definition occurrences (h : string) (hs : list string) : Z :=
  Z.of_nat (length (filter (fun h' => h' = h) hs)).

Definition first_seen (hs : list string) : list string :=
  reverse (remove_dups (reverse hs)).

(** The chunk carries the three keys [query_headers] reads, and the index
    answers the section query for it. *)
Definition well_formed (self : QdrantClient) (collection_name : string)
    (vectors_count : Z) (doc : Document) : Prop :=
  exists h dn did points,
    headers (metadata doc) = Some h
    /\ document_name (metadata doc) = Some dn
    /\ document_id (metadata doc) = Some did
    /\ query_points_section self collection_name dn h vectors_count
       = Ok points.




(** What an entry of [processed_documents] looks like, for the chunks
    [documents]: the section of one input chunk, carrying the three
    keys [query_headers] keeps. *)
Definition section_of (documents : list Document)
    (entry : string * Processed) : Prop :=
  let m := metadata (document entry.2) in
  headers m = Some entry.1
  /\ index m = None /\ organization_id m = None
  /\ source_collection m = None /\ is_personal m = None
  /\ exists doc, doc ∈ documents
                 /\ headers (metadata doc) = Some entry.1
                 /\ document_name (metadata doc) = document_name m
                 /\ document_id (metadata doc) = document_id m.

End Qdrant.

(** ** [src/handlers/retrieval_handler.py] *)
Module Retrieval.
Import Qdrant.

#[global] Instance Q_inhabited : Inhabited Q := populate 0%Q.

(** [self.reranker]: the score of one [query, passage] pair
    ([normalize=True]); scoring may raise. *)
Record FlagReranker := {
  score_pair : option string -> string -> result Q }.

(** [self.reranker.compute_score(pairs, normalize=True)], as an array:
    one score per pair; the call raises when a pair cannot be scored. *)
Definition compute_score (reranker : FlagReranker)
    (pairs : list (option string * string)) : result (list Q) :=
  map_result (fun p => score_pair reranker p.1 p.2) pairs.

Definition _query_retrieval_reranking (reranker : FlagReranker)
    (candidates : list Document) (query : option string) (threshold : Q)
  : result (list Document) :=
  match candidates with
  | [] => Ok []
  | _ =>
      let query_docs_pair :=
        map (fun candidate => (query, strip (page_content candidate)))
            candidates in
      let* scores := compute_score reranker query_docs_pair in
      let sorted_indices :=
        sorted_reverse (fun x y => Qltb (scores !!! x) (scores !!! y))
                       (seq 0 (length scores)) in
      let sorted_scores := map (fun i => scores !!! i) sorted_indices in
      let filtered_indices :=
        map fst (filter (fun p => Qle_bool threshold p.2 = true)
                        (zip sorted_indices sorted_scores)) in
      let* rerank_content :=
        map_result (fun index =>
                      let* p := list_getitem query_docs_pair index in Ok p.2)
                   filtered_indices in
      let content_to_results_map : gmap string Document :=
        foldl (fun m candidate =>
                 <[strip (page_content candidate) := candidate]> m)
              ∅ candidates in
      Ok (omap (fun content => content_to_results_map !! content)
               rerank_content)
  end.

(** [query: str | dict]; for a dict only its ['query'] entry is read. *)
Inductive QueryArg : Type :=
| QueryStr (s : string)
| QueryDict (d : gmap string string).

Definition query_text (query : QueryArg) : option string :=
  match query with
  | QueryStr s => Some s
  | QueryDict d => d !! "query"
  end.

(** The [try] block of [qdrant_retrieval]. *)
Definition qdrant_retrieval_body (client : QdrantClient)
    (reranker : FlagReranker) (query : option string) (top_k : Z)
    (collection_name : string) : result (list Document) :=
  let* ex := collection_exists client collection_name in
  if negb ex then Ok []
  else
    let* docs := hybrid_search client query collection_name in
    let* docs := _query_retrieval_reranking reranker docs query 0.3 in
    let* extended_docs := query_headers client docs collection_name in
    Ok (slice_to top_k extended_docs).

Definition qdrant_retrieval (client : QdrantClient)
    (reranker : FlagReranker) (query : QueryArg) (top_k : Z)
    (collection_name : string) : list Document :=
  let query := query_text query in
  try_except
    (qdrant_retrieval_body client reranker query top_k collection_name)
    [].

Definition check_collection_access
    (db : Collections.Postgres) (mysql : Identity.MySQL) (now : Q)
    (user_id collection_name : string) (organization_id : option string)
    (required_permission : string) : bool :=
  Collections.check_collection_permission db mysql now
    user_id collection_name organization_id false required_permission.

End Retrieval.

(** ** [src/handlers/rerank_handler.py] *)
Module Rerank.

(** [routers/rerank.py: Candidate]; the validator has already replaced
    a missing [doc_id] by a fresh uuid. *)
Record Candidate := {
  content : string;
  doc_id : string;
  organization_id : option string }.

(** [self.model.encode] (may raise) and numpy's float square root,
    which [np.linalg.norm] ends with. *)
Record Model := {
  encode : string -> result (list Q);
  np_sqrt : Q -> Q }.

(** One entry of the ['outputs'] list of a response. *)
Record Output := {
  name : string;
  data : option (list Q) }.

Definition request_ranking_triton_kserve (self : Model) (text_input : string)
  : result (list Output) :=
  let* embedding := encode self text_input in
  Ok [ {| name := "output"; data := Some embedding |} ].

Definition np_dot (a b : list Q) : result Q :=
  if (length a =? length b)%nat then
    Ok (foldr Qplus 0%Q (zip_with Qmult a b))
  else Raise ValueError.

Definition np_linalg_norm (self : Model) (v : list Q) : Q :=
  np_sqrt self (foldr Qplus 0%Q (map (fun x => x * x)%Q v)).

Definition cosine_similarity (self : Model) (vec_a vec_b : list Q)
  : result Q :=
  if (length vec_a =? 0)%nat || (length vec_b =? 0)%nat then Ok 0%Q
  else
    let* dot_product := np_dot vec_a vec_b in
    let norm_a := np_linalg_norm self vec_a in
    let norm_b := np_linalg_norm self vec_b in
    if Qeq_bool norm_a 0 || Qeq_bool norm_b 0 then Ok 0%Q
    else Ok (dot_product / (norm_a * norm_b))%Q.

Definition pad_or_truncate (embedding : list Q) (target_size : nat)
  : list Q :=
  if (target_size <? length embedding)%nat then take target_size embedding
  else if (length embedding <? target_size)%nat then
    (embedding ++ replicate (target_size - length embedding) 0%Q)%list
  else embedding.

(** [scores] is a dict keyed by [doc_id], in insertion order. *)
Definition rerank_embeddings (self : Model) (embeddings : list (list Q))
    (query_embedding : list Q) (candidates : list Candidate)
  : result (list (string * Q)) :=
  let* scores :=
    for_each
      (fun (scores : list (string * Q)) (ce : Candidate * list Q) =>
         if (0 <? length ce.2)%nat && (0 <? length query_embedding)%nat then
           let* s := cosine_similarity self ce.2 query_embedding in
           Ok (dict_set (doc_id ce.1) s scores)
         else Ok (dict_set (doc_id ce.1) 0%Q scores))
      [] (zip candidates embeddings) in
  Ok (sorted_reverse (fun a b => Qltb a.2 b.2) scores).

(** The dicts returned by [process_candidates]; ['organization_id'] is
    set only when the candidate's is truthy. *)
Record Ranked := {
  r_doc_id : string;
  r_score : Q;
  r_content : string;
  r_organization_id : option string }.

(** The [try] block of [process_candidates]. *)
Definition process_candidates_body (self : Model)
    (candidates : list Candidate) (query : string) (threshold : Q)
  : result (list Ranked) :=
  let* embeddings :=
    map_result
      (fun candidate =>
         let* resp := request_ranking_triton_kserve self (content candidate) in
         let* out := list_getitem resp 0 in
         match data out with
         | Some embedding => Ok embedding
         | None => Ok []
         end)
      candidates in
  let* query_resp := request_ranking_triton_kserve self query in
  let* query_out := list_getitem query_resp 0 in
  let query_embedding := data query_out in
  let valid_embeddings := filter (fun e => (0 < length e)%nat) embeddings in
  let target_size := max_list (map length valid_embeddings) in
  if (target_size =? 0)%nat then Ok []
  else
    let embeddings :=
      map (fun embedding => pad_or_truncate embedding target_size)
          embeddings in
    let* query_embedding :=
      match query_embedding with
      | Some q => Ok (pad_or_truncate q target_size)
      | None => Raise TypeError
      end in
    let* ranked_results :=
      rerank_embeddings self embeddings query_embedding candidates in
    let mapped_results :=
      omap (fun ds : string * Q =>
              match find (fun candidate =>
                            bool_decide (doc_id candidate = ds.1))
                         candidates with
              | Some candidate =>
                  Some {| r_doc_id := ds.1;
                          r_score := ds.2;
                          r_content := content candidate;
                          r_organization_id :=
                            if truthy_opt (organization_id candidate)
                            then organization_id candidate else None |}
              | None => None
              end)
           ranked_results in
    Ok (filter (fun item => Qle_bool threshold (r_score item) = true)
               mapped_results).

Definition process_candidates (self : Model)
    (candidates : list Candidate) (query : option string) (threshold : Q)
  : list Ranked :=
  if negb (truthy_opt query) || is_empty candidates then []
  else
    try_except
      (process_candidates_body self candidates (the query) threshold)
      [].

(** The entry [process_candidates] builds for one ranked
    [(doc_id, score)] pair: the first candidate with the [doc_id]. *)
Definition mapped_item (candidates : list Candidate) (ds : string * Q)
  : option Ranked :=
  match find (fun candidate => bool_decide (doc_id candidate = ds.1))
             candidates with
  | Some candidate =>
      Some {| r_doc_id := ds.1;
              r_score := ds.2;
              r_content := content candidate;
              r_organization_id :=
                if truthy_opt (organization_id candidate)
                then organization_id candidate else None |}
  | None => None
  end.

End Rerank.

(** ** [src/handlers/multi_collection_retriever.py] *)
Module MultiCollection.
Import Qdrant.

(** [getattr(doc.metadata, 'score', 0)]: [doc.metadata] is a dict, and a
    dict's keys are not attributes, so the lookup of the attribute
    [score] falls through to the default whatever the dict holds. *)
Definition getattr_score (metadata_ : Metadata) (default_ : Z) : Z :=
  default_.

(** [doc.metadata["source_collection"] = ...;
     doc.metadata["is_personal"] = ...] *)
Definition tag (collection_info : Collections.CollectionInfo)
    (doc : Document) : Document :=
  {| page_content := page_content doc;
     metadata :=
       {| document_name := document_name (metadata doc);
          headers := headers (metadata doc);
          document_id := document_id (metadata doc);
          index := index (metadata doc);
          organization_id := organization_id (metadata doc);
          source_collection :=
            Some (Collections.ci_collection_name collection_info);
          is_personal :=
            Some (Collections.ci_is_personal collection_info) |} |}.

(** The environment of a request. *)
Record Env := {
  db : Collections.Postgres;
  client : QdrantClient;
  reranker : Retrieval.FlagReranker }.

(** What one collection contributes to the pool: its own ranked
    result list, each document tagged with the collection. *)
Definition collection_results (env : Env) (query : string) (top_k : Z)
    (collection_info : Collections.CollectionInfo) : list Document :=
  map (tag collection_info)
      (Retrieval.qdrant_retrieval (client env) (reranker env)
         (Retrieval.QueryStr query) top_k
         (Collections.ci_collection_name collection_info)).

(** [asyncio.gather] returns the results in the order of the tasks. *)
Definition retrieve_from_collections (env : Env)
    (query : string) (user_id : string) (organization_id_ : option string)
    (top_k : Z) (include_personal include_organizational : bool)
  : list Document :=
  try_except
    (let user_collections :=
       Collections.get_user_collections (db env) user_id organization_id_
         include_personal include_organizational in
     let collection_names :=
       map Collections.ci_collection_name user_collections in
     let results_list :=
       map (fun collection_name =>
              Retrieval.qdrant_retrieval (client env) (reranker env)
                (Retrieval.QueryStr query) top_k collection_name)
           collection_names in
     let all_results :=
       flat_map (fun ir : Collections.CollectionInfo * list Document =>
                   map (tag ir.1) ir.2)
                (zip user_collections results_list) in
     let all_results :=
       sorted_reverse
         (fun a b => (getattr_score (metadata a) 0
                      <? getattr_score (metadata b) 0)%Z)
         all_results in
     Ok (slice_to top_k all_results))
    [].

End MultiCollection.


(** ** [src/routers/rerank.py]: the retry of the rerank endpoint *)
Module RerankRoute.
Import Rerank.

(** The body of [rerank_endpoint]: the [data] of its response.  A second
    pass at threshold 0.1 is made when the first returns nothing for a
    non-empty candidate list. *)
Definition rerank_endpoint (model : Model) (candidates : list Candidate)
    (query : option string) (threshold : Q) : list Ranked :=
  let result_ := process_candidates model candidates query threshold in
  if (length result_ =? 0)%nat && (0 <? length candidates)%nat then
    process_candidates model candidates query 0.1
  else result_.

End RerankRoute.

(** ** [src/handlers/api_key_auth_handler.py]: authentication *)
Module ApiKeyAuth.
Import Identity.

(** Row of the API key table; times are timestamps. *)
Record APIKey := {
  k_id : string;
  k_user_id : string;
  k_organization_id : option string;
  k_api_key : string;
  k_expiry_date : option Q;
  k_is_active : bool;
  k_last_used : option Q;
  k_usage_count : Z }.

Record APIKeyRepository := {
  api_keys : list APIKey;
  reachable : bool }.

(** [get_api_key_by_value]: [None] when no row has the value, and when
    the session raises. *)
Definition get_api_key_by_value (repo : APIKeyRepository) (api_key : string)
  : option APIKey :=
  if reachable repo then
    head (filter (fun k => k_api_key k = api_key) (api_keys repo))
  else None.

(** [key.last_used = now; key.usage_count += 1] on the first row with
    the value. *)
Fixpoint touch_first (now : Q) (api_key : string) (keys : list APIKey)
  : list APIKey :=
  match keys with
  | [] => []
  | k :: keys' =>
      if decide (k_api_key k = api_key) then
        {| k_id := k_id k; k_user_id := k_user_id k;
           k_organization_id := k_organization_id k;
           k_api_key := k_api_key k; k_expiry_date := k_expiry_date k;
           k_is_active := k_is_active k; k_last_used := Some now;
           k_usage_count := (k_usage_count k + 1)%Z |} :: keys'
      else k :: touch_first now api_key keys'
  end.

(** [usage_count] is an [Integer] column: 32 bits, signed. *)
Definition int4_max : Z := 2147483647.

(** [update_api_key_usage] runs in a session of its own, after the one
    of the lookup; [session_ok] is whether that session opens, answers
    its query and commits.  Whatever raises there is rolled back, logged
    and answered [False]: a failing session, and the commit of a
    [usage_count] beyond the range of its column. *)
Definition update_api_key_usage (repo : APIKeyRepository) (session_ok : bool)
    (now : Q) (api_key : string) : bool * APIKeyRepository :=
  if session_ok then
    match head (filter (fun k => k_api_key k = api_key) (api_keys repo)) with
    | Some key =>
        if (k_usage_count key + 1 <=? int4_max)%Z then
          (true, {| api_keys := touch_first now api_key (api_keys repo);
                    reachable := reachable repo |})
        else (false, repo)
    | None => (false, repo)
    end
  else (false, repo).

(** The service calls of this module run on the service object alone;
    the statement log of [Identity.State] is not observed here. *)
Definition run {A} (call : State -> A * State) (self : UserRoleService)
  : A * UserRoleService :=
  let '(a, st) := call (self, []) in (a, st.1).

(** [verify_organization_exists]:
    [SELECT COUNT( * ) FROM Organization WHERE Id = %s AND Status = 10]. *)
Definition verify_organization_exists (db : MySQL) (now : Q)
    (organization_id : string) (self : UserRoleService)
  : bool * UserRoleService :=
  let cached :=
    match _org_cache self !! organization_id with
    | Some (exists_, timestamp) =>
        if _is_cache_valid self now timestamp then Some exists_ else None
    | None => None
    end in
  match cached with
  | Some exists_ => (exists_, self)
  | None =>
      if connected db then
        let count :=
          length (filter (fun o => o_Id o = organization_id
                                   /\ o_Status o = 10%Z) (Organization db)) in
        let exists_ := (0 <? count)%nat in
        (exists_,
         with_org_cache self
           (<[organization_id := (exists_, now)]> (_org_cache self)))
      else (false, self)
  end.

(** What a request ends in: a value, or an [HTTPException]. *)
Inductive outcome (A : Type) : Type :=
| Return (a : A)
| HTTPException (status_code : nat) (detail : string).
Arguments Return {A} a.
Arguments HTTPException {A} status_code detail.

(** What [author_with_api_key] attaches to [request.state]. *)
Record RequestState := {
  rs_user_id : string;
  rs_organization_id : option string;
  rs_role : option string;
  rs_user_info : UserInfo }.

(** [user_info.get("organizations", [])] and
    [user_info.get("roles", {})]. *)
Definition organizations_of (user_info : UserInfo) : list OrganizationInfo :=
  match user_info with
  | FullInfo p => p_organizations p
  | ExistsOnly _ => []
  end.

Definition roles_dict (user_info : UserInfo) : gmap string string :=
  match user_info with
  | FullInfo p => p_roles p
  | ExistsOnly _ => ∅
  end.

(** The access test on [user_role]: a missing or empty role has no
    access. *)
Definition has_access (user_role : option string)
    (require_role : option string) : bool :=
  match user_role with
  | Some role =>
      if truthy role then
        if bool_decide (require_role = Some "ADMIN") then
          bool_decide (role = "ADMIN")
        else bool_decide (role = "USER") || bool_decide (role = "ADMIN")
      else false
  | None => false
  end.

(** [author_with_api_key]; [usage_session] is what the session of
    [update_api_key_usage] does, whose answer the handler drops. *)
Definition author_with_api_key (repo : APIKeyRepository)
    (usage_session : bool) (db : MySQL) (now : Q)
    (organization_id api_key : option string)
    (require_role : option string) (self : UserRoleService)
  : outcome RequestState * APIKeyRepository * UserRoleService :=
  match api_key with
  | None => (HTTPException 401 "API key required", repo, self)
  | Some api_key =>
      match get_api_key_by_value repo api_key with
      | None => (HTTPException 401 "Invalid API key", repo, self)
      | Some api_key_data =>
          if negb (k_is_active api_key_data) then
            (HTTPException 401 "API key is inactive", repo, self)
          else if match k_expiry_date api_key_data with
                  | Some expiry_date => Qltb expiry_date now
                  | None => false
                  end then
            (HTTPException 401 "API key has expired", repo, self)
          else
            let user_id := k_user_id api_key_data in
            let '(user_info, self) :=
              run (get_user_info_with_roles db now user_id) self in
            match user_info with
            | None => (HTTPException 401 "User not found in system", repo, self)
            | Some user_info =>
                let effective_org_id :=
                  if truthy_opt organization_id then organization_id
                  else k_organization_id api_key_data in
                let '(denied, self) :=
                  if truthy_opt effective_org_id then
                    let '(missing, self) :=
                      if bool_decide
                           (the effective_org_id
                            ∈ map oi_organization_id
                                (organizations_of user_info))
                      then (false, self)
                      else
                        let '(org_exists, self) :=
                          verify_organization_exists db now
                            (the effective_org_id) self in
                        (negb org_exists, self) in
                    if missing then
                      (Some (404, "Organization not found in system"), self)
                    else
                      let user_role :=
                        roles_dict user_info !! the effective_org_id in
                      if negb (has_access user_role require_role) then
                        (Some (403,
                               "User does not have required access to organization"),
                         self)
                      else (None, self)
                  else (None, self) in
                match denied with
                | Some (status_code, detail) =>
                    (HTTPException status_code detail, repo, self)
                | None =>
                    let '(_, repo) :=
                      update_api_key_usage repo usage_session now api_key in
                    (Return {| rs_user_id := user_id;
                               rs_organization_id := effective_org_id;
                               rs_role :=
                                 if truthy_opt effective_org_id then
                                   roles_dict user_info !! the effective_org_id
                                 else None;
                               rs_user_info := user_info |},
                     repo, self)
                end
            end
      end
  end.

End ApiKeyAuth.

(** ** [src/routers/retriever.py]: the retriever route *)
Module RetrieverRoute.
Import Qdrant ApiKeyAuth.

Inductive Response : Type :=
| Forbidden
| Success (data : list Document)
| Failed.

(** The body of [retriever], run on the [request.state] that
    [author_with_api_key] left. *)
Definition retriever (db : Collections.Postgres) (mysql : Identity.MySQL)
    (now : Q) (client : QdrantClient) (reranker : Retrieval.FlagReranker)
    (state : RequestState) (query : string) (top_k : Z)
    (collection_name : string) : Response :=
  let has_access :=
    Retrieval.check_collection_access db mysql now (rs_user_id state)
      collection_name (rs_organization_id state) "read" in
  if negb has_access then Forbidden
  else
    let resp :=
      Retrieval.qdrant_retrieval client reranker (Retrieval.QueryStr query)
        top_k collection_name in
    if is_empty resp then Failed else Success resp.

End RetrieverRoute.

(** ** Concrete stores used to run the handlers *)
Module Examples.
Import Identity Collections.

Definition user_row (uid first_name : string) : UserRow :=
  {| u_Id := uid; u_Code := "U-" +:+ uid; u_Email := uid +:+ "@example.org";
     u_Firstname := first_name; u_Lastname := "Doe"; u_Phone := "";
     u_Gender := ""; u_Avatar := "";
     u_DefaultOrganizationId := Some "orgO"; u_Status := 10 |}.

(** alice is ADMIN of orgO, bob is USER of orgO, mallory has an account
    and no membership. *)
Definition mysql_demo : MySQL :=
  {| User := [user_row "alice" "Alice"; user_row "bob" "Bob";
              user_row "mallory" "Mallory"];
     OrganizationUser :=
       [ {| ou_UserId := "alice"; ou_OrganizationId := "orgO";
            ou_Role := 10; ou_Status := 10 |};
         {| ou_UserId := "bob"; ou_OrganizationId := "orgO";
            ou_Role := 90; ou_Status := 10 |} ];
     Organization :=
       [ {| o_Id := "orgO"; o_Name := "Org O"; o_Code := "O";
            o_Status := 10 |} ];
     connected := true |}.

(** "alpha" is alice's personal collection; "docs" belongs to orgO and
    was created by carol. *)
Definition alpha : Collection :=
  {| id := "1"; user_id := "alice"; collection_name := "alpha";
     organization_id := None; is_personal := true |}.
Definition docs : Collection :=
  {| id := "2"; user_id := "carol"; collection_name := "docs";
     organization_id := Some "orgO"; is_personal := false |}.

Definition postgres_demo : Postgres :=
  {| vectorstore_collection := [alpha; docs]; available := true |}.

Definition chunk (text name hdrs : string) (i : Z) : Qdrant.Document :=
  {| Qdrant.page_content := text;
     Qdrant.metadata :=
       {| Qdrant.document_name := Some name;
          Qdrant.headers := Some hdrs;
          Qdrant.document_id := Some ("id-" +:+ name);
          Qdrant.index := Some i;
          Qdrant.organization_id := None;
          Qdrant.source_collection := None;
          Qdrant.is_personal := None |} |}.

(** An index with the collections "alpha" and "docs": "alpha" answers
    every query with two chunks of one section, every call on "docs"
    fails (an index outage), and no other collection exists. *)
Definition qdrant_demo : Qdrant.QdrantClient :=
  {| Qdrant.collection_exists := fun c =>
       if decide (c = "docs") then Raise (Exception "timeout")
       else Ok (bool_decide (c = "alpha"));
     Qdrant.points_count := fun c =>
       if decide (c = "alpha") then Ok 2%Z else Raise (Exception "timeout");
     Qdrant.query_points_hybrid := fun _ c _ =>
       if decide (c = "alpha") then
         Ok [chunk "refunds within 30 days. " "policy.pdf" "Returns" 0;
             chunk "items must be unused." "policy.pdf" "Returns" 1]
       else Raise (Exception "timeout");
     Qdrant.query_points_section := fun c dn h _ =>
       if decide (c = "alpha") then
         if decide (dn = "policy.pdf") then
           Ok ["refunds within 30 days. "; "items must be unused."]
         else if decide (dn = "faq.pdf") then Ok ["see the returns desk."]
         else Ok []
       else Raise (Exception "timeout") |}.

(** A reranker giving every pair the score 0.9. *)
Definition reranker_demo : Retrieval.FlagReranker :=
  {| Retrieval.score_pair := fun _ _ => Ok 0.9%Q |}.

(** Two chunks with the same headers from two different documents. *)
Definition same_headers_chunks : list Qdrant.Document :=
  [chunk "refunds within 30 days. " "policy.pdf" "Returns" 0;
   chunk "see the returns desk." "faq.pdf" "Returns" 0].

(** Two candidates with the same text from two different documents. *)
Definition same_text_chunks : list Qdrant.Document :=
  [chunk "refunds within 30 days." "policy.pdf" "Returns" 0;
   chunk "refunds within 30 days." "faq.pdf" "Refunds" 3].

(** A model that fails on the text "bad" and embeds any other text as
    the unit vector (1, 0); its square root is exact on squares. *)
Definition model_demo : Rerank.Model :=
  {| Rerank.encode := fun text =>
       if decide (text = "bad") then Raise (Exception "encode")
       else Ok [1%Q; 0%Q];
     Rerank.np_sqrt := fun x => (Z.sqrt (Qnum x) # Pos.sqrt (Qden x))%Q |}.

Definition candidate (text did : string) : Rerank.Candidate :=
  {| Rerank.content := text; Rerank.doc_id := did;
     Rerank.organization_id := None |}.

(** The service after alice's role in orgO has been looked up once. *)
Definition service_demo : UserRoleService :=
  (get_user_role mysql_demo 0 "alice" "orgO" (init, [])).2.1.

Definition env_demo : MultiCollection.Env :=
  {| MultiCollection.db :=
       {| vectorstore_collection :=
            [alpha;
             {| id := "2"; user_id := "alice"; collection_name := "docs";
                organization_id := None; is_personal := true |}];
          available := true |};
     MultiCollection.client := qdrant_demo;
     MultiCollection.reranker := reranker_demo |}.

(** The table after an organizational "x" and then alice's personal "x"
    have been created: [create_collection] keeps one row per name and
    kind. *)
Definition shadowed_demo : Postgres :=
  (create_collection
     (create_collection
        {| vectorstore_collection := []; available := true |}
        "7" "x" "carol" (Some "orgO") false).2
     "8" "x" "alice" None true).2.

(** The relational store during an outage. *)
Definition mysql_down : MySQL :=
  {| User := User mysql_demo;
     OrganizationUser := OrganizationUser mysql_demo;
     Organization := Organization mysql_demo;
     connected := false |}.

(** "loose" is neither personal nor owned by an organization. *)
Definition loose : Collection :=
  {| id := "3"; user_id := "alice"; collection_name := "loose";
     organization_id := None; is_personal := false |}.

Definition postgres_loose : Postgres :=
  {| vectorstore_collection := [loose]; available := true |}.

(** alice's key, bound to orgO and valid until time 100. *)
Definition keys_demo : ApiKeyAuth.APIKeyRepository :=
  {| ApiKeyAuth.api_keys :=
       [ {| ApiKeyAuth.k_id := "k1"; ApiKeyAuth.k_user_id := "alice";
            ApiKeyAuth.k_organization_id := Some "orgO";
            ApiKeyAuth.k_api_key := "key-alice";
            ApiKeyAuth.k_expiry_date := Some 100%Q;
            ApiKeyAuth.k_is_active := true;
            ApiKeyAuth.k_last_used := None;
            ApiKeyAuth.k_usage_count := 0 |} ];
     ApiKeyAuth.reachable := true |}.

(** The same key with its counter at the maximum of the column. *)
Definition keys_full : ApiKeyAuth.APIKeyRepository :=
  {| ApiKeyAuth.api_keys :=
       [ {| ApiKeyAuth.k_id := "k1"; ApiKeyAuth.k_user_id := "alice";
            ApiKeyAuth.k_organization_id := Some "orgO";
            ApiKeyAuth.k_api_key := "key-alice";
            ApiKeyAuth.k_expiry_date := Some 100%Q;
            ApiKeyAuth.k_is_active := true;
            ApiKeyAuth.k_last_used := None;
            ApiKeyAuth.k_usage_count := ApiKeyAuth.int4_max |} ];
     ApiKeyAuth.reachable := true |}.

(** A chunk stored without the ['headers'] key. *)
Definition chunk_without_headers : Qdrant.Document :=
  {| Qdrant.page_content := "orphan";
     Qdrant.metadata :=
       {| Qdrant.document_name := Some "policy.pdf";
          Qdrant.headers := None;
          Qdrant.document_id := Some "id-policy.pdf";
          Qdrant.index := Some 7%Z;
          Qdrant.organization_id := None;
          Qdrant.source_collection := None;
          Qdrant.is_personal := None |} |}.

End Examples.

(** * Properties *)

(** ** Facts about the Python primitives *)
Module PyFacts.

(** *** [sorted(..., reverse=True)] *)
Section SortFacts.
Context {A : Type} (lt : A -> A -> bool).

Lemma insert_desc_Permutation (x : A) (l : list A) :
  insert_desc lt x l ≡ₚ x :: l.
Proof.
  induction l as [|y l IH]; cbn; [done|].
  destruct (lt x y); [|done].
  rewrite IH. apply Permutation_swap.
Qed.

Lemma sorted_reverse_Permutation (l : list A) : sorted_reverse lt l ≡ₚ l.
Proof.
  unfold sorted_reverse. induction l as [|x l IH]; cbn; [done|].
  by rewrite insert_desc_Permutation, IH.
Qed.

(** Descending order: no element is less than its successor. *)
Lemma insert_desc_Sorted (x : A) (l : list A) :
  (forall a b, lt a b = true -> lt b a = false) ->
  Sorted (fun a b => lt a b = false) l ->
  Sorted (fun a b => lt a b = false) (insert_desc lt x l).
Proof.
  intros Hasym. induction 1 as [|y l Hsorted IH Hhd]; cbn.
  - by repeat constructor.
  - destruct (lt x y) eqn:Hxy.
    + constructor; [done|].
      destruct Hhd as [|z l Hyz]; cbn.
      * constructor. by apply Hasym.
      * destruct (lt x z); constructor; [done | by apply Hasym].
    + by repeat constructor.
Qed.

Lemma sorted_reverse_Sorted (l : list A) :
  (forall a b, lt a b = true -> lt b a = false) ->
  Sorted (fun a b => lt a b = false) (sorted_reverse lt l).
Proof.
  intros Hasym. unfold sorted_reverse.
  induction l as [|x l IH]; cbn; [constructor|].
  by apply insert_desc_Sorted.
Qed.

(** Stability: an element is never moved in front of an earlier element
    that is not less than it. *)
Lemma insert_desc_stable (x : A) (l : list A) :
  Forall (fun y => lt x y = false) l -> insert_desc lt x l = x :: l.
Proof. destruct 1 as [|y l Hy _]; cbn; [done|]. by rewrite Hy. Qed.

End SortFacts.

(** *** The ordered dict *)
Section DictFacts.
Context {K V : Type} `{EqDecision K}.

Lemma dict_get_set (k k' : K) (v : V) (d : list (K * V)) :
  dict_get k (dict_set k' v d) = if decide (k = k') then Some v else dict_get k d.
Proof.
  induction d as [|[k0 v0] d IH]; cbn.
  - by destruct (decide (k = k')).
  - destruct (decide (k' = k0)) as [->|Hne]; cbn.
    + destruct (decide (k = k0)); done.
    + rewrite IH. destruct (decide (k = k0)) as [->|]; [|done].
      rewrite decide_False; [done|congruence].
Qed.

Lemma dict_get_None (k : K) (d : list (K * V)) :
  dict_get k d = None <-> k ∉ d.*1.
Proof.
  induction d as [|[k0 v0] d IH]; cbn.
  - split; [intros _; apply not_elem_of_nil | done].
  - rewrite not_elem_of_cons. destruct (decide (k = k0)) as [->|Hne].
    + split; [done | intros [? _]; done].
    + rewrite IH. tauto.
Qed.

Lemma dict_set_keys (k : K) (v : V) (d : list (K * V)) :
  (dict_set k v d).*1 = if decide (k ∈ d.*1) then d.*1 else (d.*1 ++ [k])%list.
Proof.
  induction d as [|[k0 v0] d IH]; cbn.
  - rewrite decide_False; [done | apply not_elem_of_nil].
  - destruct (decide (k = k0)) as [->|Hne]; cbn.
    + rewrite decide_True; [done | apply list_elem_of_here].
    + rewrite IH. destruct (decide (k ∈ d.*1)) as [Hin|Hnin].
      * rewrite decide_True; [done | by apply list_elem_of_further].
      * rewrite decide_False; [done|].
        rewrite not_elem_of_cons. done.
Qed.
End DictFacts.


(** *** Comparison of floats *)
Lemma Qltb_true (a b : Q) : Qltb a b = true <-> (a < b)%Q.
Proof.
  unfold Qltb. rewrite negb_true_iff. split.
  - intros H. apply Qnot_le_lt. intros Hle.
    apply Qle_bool_iff in Hle. congruence.
  - intros H. destruct (Qle_bool b a) eqn:E; [|done].
    apply Qle_bool_iff in E. exfalso. by apply (Qlt_not_le a b).
Qed.

Lemma Qltb_false (a b : Q) : Qltb a b = false <-> (b <= a)%Q.
Proof.
  unfold Qltb. rewrite negb_false_iff. apply Qle_bool_iff.
Qed.

End PyFacts.

(** ** The role cache: invalidation and time-to-live *)
Module RoleCache.
Import Identity PyFacts.

(** *** Deleting a list of keys *)
Lemma lookup_foldl_delete {V} (keys : list (string * string))
    (cache : gmap (string * string) V) (k : string * string) :
  foldl (fun m key => delete key m) cache keys !! k
  = if decide (k ∈ keys) then None else cache !! k.
Proof.
  revert cache. induction keys as [|key keys IH]; intros cache; cbn [foldl].
  - case_decide as Hin; [by apply elem_of_nil in Hin | done].
  - rewrite IH, lookup_delete.
    destruct (decide (k ∈ keys)) as [Hin|Hnin],
      (decide (key = k)) as [Heq|Hne],
      (decide (k ∈ key :: keys)) as [Hin'|Hnin']; try done; exfalso.
    + apply Hnin'. by apply list_elem_of_further.
    + apply Hnin'. by apply list_elem_of_further.
    + apply Hnin'. subst. apply list_elem_of_here.
    + apply elem_of_cons in Hin' as [->|?]; [by apply Hne | by apply Hnin].
Qed.

Lemma lookup_delete_keys {V} (p : string * string -> bool)
    (cache : gmap (string * string) V) (k : string * string) :
  delete_keys p cache !! k = if p k then None else cache !! k.
Proof.
  unfold delete_keys. rewrite lookup_foldl_delete.
  destruct (decide (k ∈ _)) as [Hin|Hnin].
  - apply list_elem_of_filter in Hin as [Hp _]. by rewrite Hp.
  - destruct (p k) eqn:Hp; [|done].
    destruct (cache !! k) as [v|] eqn:Hk; [|done].
    exfalso. apply Hnin. apply list_elem_of_filter. split; [done|].
    apply (list_elem_of_fmap_2' fst _ (k, v)); [|done].
    by apply elem_of_map_to_list.
Qed.

Lemma truthy_nonempty (s : string) : s ≠ "" -> truthy s = true.
Proof. by destruct s. Qed.

(** C9. [clear_cache] is selective.  For non-empty ids [u] and [o]:
    [clear_cache(u, o)] deletes exactly the role entry keyed [(u, o)];
    [clear_cache(u)] deletes [u]'s user-info entry and every role entry
    whose user component is [u]; [clear_cache(organization_id=o)]
    deletes [o]'s organization entry and every role entry whose
    organization component is [o]; [clear_cache()] empties the three
    caches.  In each selective case every other entry of every cache is
    unchanged. *)
Theorem clear_cache_selective (self : UserRoleService) (u o : string) :
  u ≠ "" -> o ≠ "" ->
  (let self' := clear_cache (Some u) (Some o) self in
   _role_cache self' = delete (u, o) (_role_cache self)
   /\ _user_cache self' = _user_cache self
   /\ _org_cache self' = _org_cache self)
  /\ (let self' := clear_cache (Some u) None self in
      _user_cache self' = delete u (_user_cache self)
      /\ (forall k, _role_cache self' !! k
                    = if decide (k.1 = u) then None
                      else _role_cache self !! k)
      /\ _org_cache self' = _org_cache self)
  /\ (let self' := clear_cache None (Some o) self in
      _org_cache self' = delete o (_org_cache self)
      /\ (forall k, _role_cache self' !! k
                    = if decide (k.2 = o) then None
                      else _role_cache self !! k)
      /\ _user_cache self' = _user_cache self)
  /\ (let self' := clear_cache None None self in
      _role_cache self' = ∅ /\ _user_cache self' = ∅
      /\ _org_cache self' = ∅).
Proof.
  intros Hu Ho. unfold clear_cache; simpl.
  rewrite (truthy_nonempty u Hu), (truthy_nonempty o Ho); simpl.
  repeat split; try reflexivity.
  - intros k. rewrite lookup_delete_keys.
    destruct (decide (k.1 = u)) as [Heq|Hne].
    + by rewrite bool_decide_eq_true_2.
    + by rewrite bool_decide_eq_false_2.
  - intros k. rewrite lookup_delete_keys.
    destruct (decide (k.2 = o)) as [Heq|Hne].
    + by rewrite bool_decide_eq_true_2.
    + by rewrite bool_decide_eq_false_2.
Qed.

Lemma clear_cache_selective_witness :
  _role_cache (clear_cache (Some "alice") (Some "orgO") Examples.service_demo)
  = delete ("alice", "orgO") (_role_cache Examples.service_demo).
Proof.
  destruct (clear_cache_selective Examples.service_demo "alice" "orgO")
    as [[H _] _]; [done | done | exact H].
Defined.

(** An entry that is stale stays stale as the clock advances. *)
Lemma stale_mono (self self' : UserRoleService) (t t' ts : Q) :
  _cache_ttl self' = _cache_ttl self -> (t <= t')%Q ->
  _is_cache_valid self t ts = false -> _is_cache_valid self' t' ts = false.
Proof.
  unfold _is_cache_valid. intros -> Hle. rewrite !Qltb_false. lra.
Qed.

Lemma cached_role_mono (self self' : UserRoleService) (t t' : Q) k :
  _cache_ttl self' = _cache_ttl self -> (t <= t')%Q ->
  _role_cache self' !! k = _role_cache self !! k ->
  cached_role self t k = None -> cached_role self' t' k = None.
Proof.
  unfold cached_role. intros Httl Hle ->.
  destruct (_role_cache self !! k) as [[r ts]|]; [|done].
  destruct (_is_cache_valid self t ts) eqn:Hv; [done|].
  intros _. by rewrite (stale_mono self self' t t' ts).
Qed.

Lemma cached_user_info_mono (self self' : UserRoleService) (t t' : Q) u :
  _cache_ttl self' = _cache_ttl self -> (t <= t')%Q ->
  _user_cache self' !! u = _user_cache self !! u ->
  cached_user_info self t u = None -> cached_user_info self' t' u = None.
Proof.
  unfold cached_user_info. intros Httl Hle ->.
  destruct (_user_cache self !! u) as [[r ts]|]; [|done].
  destruct (_is_cache_valid self t ts) eqn:Hv; [done|].
  intros _. by rewrite (stale_mono self self' t t' ts).
Qed.

(** What the loop over the membership rows leaves in the caches. *)
Lemma role_rows_fold (t : Q) (u : string) (rows : list RoleRow)
    roles0 orgs0 self0 roles orgs self' :
  foldl (role_row_step t u) (roles0, orgs0, self0) rows = (roles, orgs, self') ->
  _cache_ttl self' = _cache_ttl self0
  /\ _user_cache self' = _user_cache self0
  /\ forall o,
      match roles !! o with
      | Some role => roles0 !! o = Some role
                     /\ _role_cache self' !! (u, o) = _role_cache self0 !! (u, o)
                     \/ _role_cache self' !! (u, o) = Some (Some role, t)
      | None => roles0 !! o = None
                /\ _role_cache self' !! (u, o) = _role_cache self0 !! (u, o)
      end.
Proof.
  revert roles0 orgs0 self0.
  induction rows as [|row rows IH]; intros roles0 orgs0 self0 Hfold.
  - simpl in Hfold. inversion Hfold; subst. repeat split; try done.
    intros o. destruct (roles !! o); auto.
  - simpl in Hfold. apply IH in Hfold as (Httl & Huc & Hrc).
    repeat split; try done.
    intros o. specialize (Hrc o). simpl in Hrc.
    destruct (decide (rr_OrganizationId row = o)) as [<-|Hne].
    + rewrite lookup_insert_eq in Hrc. rewrite lookup_insert_eq in Hrc.
      destruct (roles !! rr_OrganizationId row) as [role|].
      * right. destruct Hrc as [[Hr Hc]|Hc]; [|done].
        rewrite Hc. congruence.
      * by destruct Hrc.
    + rewrite lookup_insert_ne in Hrc by done.
      rewrite lookup_insert_ne in Hrc by congruence. done.
Qed.

(** A call that finds neither cache valid, against a reachable store. *)
Lemma get_user_role_miss (db : MySQL) (t : Q) (u o : string)
    (self : UserRoleService) (log : list Sql) :
  connected db = true ->
  cached_role self t (u, o) = None ->
  cached_user_info self t u = None ->
  exists r self' q,
    get_user_role db t u o (self, log)
    = (r, (self', (log ++ [SelectUser u; q])%list))
    /\ (q = SelectUserRoles u \/ q = SelectRole u o)
    /\ _cache_ttl self' = _cache_ttl self
    /\ (_role_cache self' !! (u, o) = Some (r, t)
        \/ _role_cache self' !! (u, o) = _role_cache self !! (u, o)
           /\ exists p, _user_cache self' !! u = Some (FullInfo p, t)
                        /\ p_roles p !! o = r)
    /\ (_user_cache self' !! u = _user_cache self !! u
        \/ exists i, _user_cache self' !! u = Some (i, t)).
Proof.
  intros Hdb Hrole Huser.
  unfold get_user_role, get_user_info_with_roles, execute_query.
  cbn [fst snd]. rewrite Hrole, Huser, Hdb.
  destruct (user_query db u) as [|user_info rest].
  - cbn [roles_of fst snd].
    destruct (direct_role_query db u o) as [|role_id more].
    + eexists None, _, (SelectRole u o). cbn [fst snd].
      rewrite <- app_assoc. repeat split; try done; auto.
      left. apply lookup_insert_eq.
    + eexists (Some _), _, (SelectRole u o). cbn [fst snd].
      rewrite <- app_assoc. repeat split; try done; auto.
      left. apply lookup_insert_eq.
  - cbn [fst snd].
    destruct (foldl (role_row_step t u) (∅, [], self) (role_query db u))
      as [[roles orgs] self1] eqn:Hfold.
    apply role_rows_fold in Hfold as (Httl & Huc & Hrc).
    cbn [roles_of p_roles fst snd].
    eexists (roles !! o), _, (SelectUserRoles u).
    rewrite <- app_assoc. repeat split; try done; auto.
    + specialize (Hrc o). cbn.
      destruct (roles !! o) as [role|] eqn:Hro.
      * destruct Hrc as [[Hr _]|Hc]; [by rewrite lookup_empty in Hr | by left].
      * right. split; [apply Hrc|]. eexists. split; [apply lookup_insert_eq|].
        exact Hro.
    + right. eexists. cbn. apply lookup_insert_eq.
Qed.

(** Whatever the store answers, a call that finds neither cache valid
    sends two statements. *)
Lemma get_user_role_miss_log (db : MySQL) (t : Q) (u o : string)
    (self : UserRoleService) (log : list Sql) :
  cached_role self t (u, o) = None ->
  cached_user_info self t u = None ->
  exists q,
    (get_user_role db t u o (self, log)).2.2 = (log ++ [SelectUser u; q])%list
    /\ (q = SelectUserRoles u \/ q = SelectRole u o).
Proof.
  intros Hrole Huser.
  unfold get_user_role, get_user_info_with_roles, execute_query.
  cbn [fst snd]. rewrite Hrole, Huser.
  destruct (connected db).
  - destruct (user_query db u) as [|user_info rest].
    + cbn [roles_of fst snd]. exists (SelectRole u o).
      destruct (direct_role_query db u o); cbn [fst snd];
        rewrite <- app_assoc; auto.
    + cbn [fst snd].
      destruct (foldl (role_row_step t u) (∅, [], self) (role_query db u))
        as [[roles orgs] self1].
      cbn [roles_of fst snd]. exists (SelectUserRoles u).
      rewrite <- app_assoc; auto.
  - cbn [roles_of fst snd]. exists (SelectRole u o).
    rewrite <- app_assoc; auto.
Qed.

(** C5. Time-to-live of the role cache.  Start from a service in which
    neither the role entry of [(u, o)] nor the user-info entry of [u]
    is valid at [t1], with a reachable store.  The call at [t1] performs
    the authoritative lookup: it sends the user statement and one
    membership statement.  A call at [t2] inside the TTL window
    ([t2 - t1 < 300]) returns the same role, sends nothing and leaves
    the state as it is, so the two calls make one lookup.  A call at
    [t3] with [300 <= t3 - t1] finds every entry written at [t1] stale,
    treats it as absent and performs the lookup again. *)
Theorem get_user_role_one_lookup_per_ttl
    (db1 db2 db3 : MySQL) (self : UserRoleService) (log : list Sql)
    (u o : string) (t1 t2 t3 : Q) :
  _cache_ttl self = 300%Q ->
  connected db1 = true ->
  cached_role self t1 (u, o) = None ->
  cached_user_info self t1 u = None ->
  (t1 <= t2)%Q -> (t2 - t1 < 300)%Q -> (300 <= t3 - t1)%Q ->
  exists r st1 q1 q3,
    get_user_role db1 t1 u o (self, log) = (r, st1)
    /\ st1.2 = (log ++ [SelectUser u; q1])%list
    /\ (q1 = SelectUserRoles u \/ q1 = SelectRole u o)
    /\ get_user_role db2 t2 u o st1 = (r, st1)
    /\ (get_user_role db3 t3 u o st1).2.2
       = (st1.2 ++ [SelectUser u; q3])%list
    /\ (q3 = SelectUserRoles u \/ q3 = SelectRole u o).
Proof.
  intros Httl Hdb Hrole Huser H12 Hin Hout.
  destruct (get_user_role_miss db1 t1 u o self log Hdb Hrole Huser)
    as (r & self' & q1 & Hcall & Hq1 & Httl' & Hwarm & Hucache).
  assert (Hvalid : _is_cache_valid self' t2 t1 = true).
  { unfold _is_cache_valid. rewrite Httl', Httl. by apply Qltb_true. }
  assert (Hstale : _is_cache_valid self' t3 t1 = false).
  { unfold _is_cache_valid. rewrite Httl', Httl. by apply Qltb_false. }
  assert (H13 : (t1 <= t3)%Q) by lra.
  assert (Hrole3 : cached_role self' t3 (u, o) = None).
  { destruct Hwarm as [Hr|[Hr _]].
    - unfold cached_role. by rewrite Hr, Hstale.
    - by apply (cached_role_mono self self' t1 t3). }
  assert (Huser3 : cached_user_info self' t3 u = None).
  { destruct Hucache as [Hu|[i Hu]].
    - by apply (cached_user_info_mono self self' t1 t3).
    - unfold cached_user_info. by rewrite Hu, Hstale. }
  destruct (get_user_role_miss_log db3 t3 u o self'
              (log ++ [SelectUser u; q1])%list Hrole3 Huser3)
    as (q3 & Hlog3 & Hq3).
  exists r, (self', (log ++ [SelectUser u; q1])%list), q1, q3.
  repeat split; try done.
  unfold get_user_role. cbn [fst snd].
  destruct Hwarm as [Hr|[Hr (p & Hp & Hroles)]].
  - unfold cached_role. by rewrite Hr, Hvalid.
  - rewrite (cached_role_mono self self' t1 t2) by done.
    unfold get_user_info_with_roles. cbn [fst snd].
    unfold cached_user_info. rewrite Hp, Hvalid.
    cbn [roles_of]. by rewrite Hroles.
Qed.

Lemma get_user_role_one_lookup_per_ttl_witness :
  exists r st1 q1 q3,
    get_user_role Examples.mysql_demo 0 "alice" "orgO" (init, []) = (r, st1)
    /\ st1.2 = ([] ++ [SelectUser "alice"; q1])%list
    /\ (q1 = SelectUserRoles "alice" \/ q1 = SelectRole "alice" "orgO")
    /\ get_user_role Examples.mysql_demo 299 "alice" "orgO" st1 = (r, st1)
    /\ (get_user_role Examples.mysql_demo 300 "alice" "orgO" st1).2.2
       = (st1.2 ++ [SelectUser "alice"; q3])%list
    /\ (q3 = SelectUserRoles "alice" \/ q3 = SelectRole "alice" "orgO").
Proof.
  apply (get_user_role_one_lookup_per_ttl
           Examples.mysql_demo Examples.mysql_demo Examples.mysql_demo
           init [] "alice" "orgO" 0 299 300);
    try reflexivity; lra.
Defined.


End RoleCache.

(** ** Collection permissions *)
Module Access.
Import Identity Collections.

Lemma is_admin_role (mysql : MySQL) (now : Q) (u o : string) (st : State) :
  (is_admin mysql now u o st).1
  = bool_decide ((get_user_role mysql now u o st).1 = Some "ADMIN").
Proof.
  unfold is_admin. by destruct (get_user_role mysql now u o st).
Qed.

(** X30.  The row the check reads is the first one stored under the
    name.  When that row is personal, the check is true exactly when
    the store is reachable and the caller is the row's [user_id],
    whatever permission is asked and whatever [organization_id] is
    supplied (the identity store is not consulted); when no row has
    the name the check is false.  The check never raises. *)
Theorem personal_collection_owner_only
    (db : Postgres) (mysql : MySQL) (now : Q) (uid name : string)
    (org : option string) (isp : bool) (perm : string) :
  (forall c,
      first_by_name (vectorstore_collection db) name = Some c ->
      is_personal c = true ->
      check_collection_permission db mysql now uid name org isp perm
      = available db && bool_decide (user_id c = uid))
  /\ (first_by_name (vectorstore_collection db) name = None ->
      check_collection_permission db mysql now uid name org isp perm
      = false).
Proof.
  unfold check_collection_permission, session_scope.
  split.
  - intros c Hc Hp. destruct (available db); [|done].
    cbn. by rewrite Hc, Hp.
  - intros Hc. destruct (available db); [|done].
    cbn. by rewrite Hc.
Qed.

Lemma personal_collection_owner_only_witness :
  check_collection_permission Examples.postgres_demo Examples.mysql_demo 0
    "bob" "alpha" (Some "orgO") false "read" = false
  /\ check_collection_permission Examples.postgres_demo Examples.mysql_demo 0
       "alice" "alpha" None false "delete" = true
  /\ check_collection_permission Examples.postgres_demo Examples.mysql_demo 0
       "bob" "missing" None false "read" = false.
Proof.
  split; [|split].
  - apply (proj1 (personal_collection_owner_only Examples.postgres_demo
                    Examples.mysql_demo 0 "bob" "alpha" (Some "orgO")
                    false "read") Examples.alpha); reflexivity.
  - apply (proj1 (personal_collection_owner_only Examples.postgres_demo
                    Examples.mysql_demo 0 "alice" "alpha" None
                    false "delete") Examples.alpha); reflexivity.
  - apply (proj2 (personal_collection_owner_only Examples.postgres_demo
                    Examples.mysql_demo 0 "bob" "missing" None
                    false "read")); reflexivity.
Defined.

(** C6.  The check never reads its [is_personal] argument and takes the
    first row stored under the name, while [create_collection] keeps
    one row per name and kind.  Once an organizational "x" and then
    alice's personal "x" have been created, every check on "x" is
    answered for the organizational row: mallory, who owns nothing and
    belongs to no organization, is granted the read of "x" by naming
    orgO, and alice is refused her own personal collection, both with
    [is_personal=True]. *)
Theorem personal_collection_shadowed :
  vectorstore_collection Examples.shadowed_demo
  = [ {| id := "7"; user_id := "carol"; collection_name := "x";
         organization_id := Some "orgO"; is_personal := false |};
      {| id := "8"; user_id := "alice"; collection_name := "x";
         organization_id := None; is_personal := true |} ]
  /\ (get_user_role Examples.mysql_demo 0 "mallory" "orgO" (init, [])).1
     = None
  /\ check_collection_permission Examples.shadowed_demo Examples.mysql_demo 0
       "mallory" "x" (Some "orgO") true "read" = true
  /\ check_collection_permission Examples.shadowed_demo Examples.mysql_demo 0
       "alice" "x" None true "read" = false
  /\ check_collection_permission Examples.shadowed_demo Examples.mysql_demo 0
       "alice" "x" None true "delete" = false.
Proof. vm_compute. repeat split. Qed.

(** C1, as stated, fails.  mallory has no membership in orgO, yet the
    read check on orgO's collection is true for her as soon as the
    call carries [organization_id = "orgO"]; bob is a USER of orgO and
    carol created the collection, yet without that argument bob's read
    and carol's delete are refused. *)
Lemma org_permission_counterexample :
  (verify_access Examples.mysql_demo 0 "mallory" "orgO" "USER" (init, [])).1
  = false
  /\ check_collection_permission Examples.postgres_demo Examples.mysql_demo 0
       "mallory" "docs" (Some "orgO") false "read" = true
  /\ (verify_access Examples.mysql_demo 0 "bob" "orgO" "USER" (init, [])).1
     = true
  /\ check_collection_permission Examples.postgres_demo Examples.mysql_demo 0
       "bob" "docs" None false "read" = false
  /\ user_id Examples.docs = "carol"
  /\ check_collection_permission Examples.postgres_demo Examples.mysql_demo 0
       "carol" "docs" None false "delete" = false.
Proof. vm_compute. repeat split. Qed.

(** C1, amended.  For an organizational collection that is the row the
    check reads (the first row stored under its name) and whose owning
    organization id is non-empty, with the collection table reachable:
    a read is granted exactly when the [organization_id] supplied with
    the call is the owning organization (no role is looked up); any
    other permission is granted exactly when that holds and the caller
    is the collection's creator or [is_admin] finds the role ADMIN for
    the caller in the owning organization. *)
Theorem org_collection_permission
    (db : Postgres) (mysql : MySQL) (now : Q) (uid name : string)
    (org : option string) (isp : bool) (perm : string)
    (c : Collection) (oid : string) :
  available db = true ->
  first_by_name (vectorstore_collection db) name = Some c ->
  is_personal c = false ->
  organization_id c = Some oid ->
  oid ≠ "" ->
  check_collection_permission db mysql now uid name org isp "read"
  = bool_decide (org = Some oid)
  /\ (perm ≠ "read" ->
      check_collection_permission db mysql now uid name org isp perm
      = bool_decide (org = Some oid)
        && (bool_decide (user_id c = uid)
            || bool_decide ((get_user_role mysql now uid oid (init, [])).1
                            = Some "ADMIN"))).
Proof.
  intros Hdb Hc Hp Ho Hne.
  unfold check_collection_permission, session_scope.
  rewrite Hdb. cbn [bind try_except]. rewrite Hc, Hp, Ho.
  cbn [truthy_opt]. rewrite (RoleCache.truthy_nonempty oid Hne).
  cbn [andb].
  destruct (decide (org = Some oid)) as [->|Hneq].
  - rewrite !bool_decide_eq_true_2 by done. split; [done|].
    intros Hperm. rewrite (bool_decide_eq_false_2 (perm = "read")) by done.
    cbn [the default andb]. rewrite is_admin_role.
    by destruct (bool_decide (user_id c = uid)).
  - rewrite !(bool_decide_eq_false_2 (Some oid = org)) by congruence.
    rewrite !(bool_decide_eq_false_2 (org = Some oid)) by done.
    done.
Qed.

Lemma org_collection_permission_witness :
  check_collection_permission Examples.postgres_demo Examples.mysql_demo 0
    "bob" "docs" (Some "orgO") false "read" = true
  /\ check_collection_permission Examples.postgres_demo Examples.mysql_demo 0
       "bob" "docs" (Some "orgO") false "delete" = false.
Proof.
  destruct (org_collection_permission Examples.postgres_demo
              Examples.mysql_demo 0 "bob" "docs" (Some "orgO") false
              "delete" Examples.docs "orgO") as [Hread Hdel];
    try reflexivity; [done|].
  split; [exact Hread | by apply Hdel].
Defined.

End Access.

(** ** Section reassembly *)
Module Reassembly.
Import Qdrant PyFacts.

(** *** Grouping by headers *)
Lemma first_seen_snoc (hs : list string) (h : string) :
  first_seen (hs ++ [h])
  = if decide (h ∈ hs) then first_seen hs else (first_seen hs ++ [h])%list.
Proof.
  unfold first_seen. rewrite reverse_app.
  change (reverse [h] ++ reverse hs)%list with (h :: reverse hs).
  change (remove_dups (h :: reverse hs))
    with (if decide (h ∈ reverse hs) then remove_dups (reverse hs)
          else h :: remove_dups (reverse hs)).
  destruct (decide (h ∈ hs)) as [Hin|Hnin].
  - rewrite decide_True; [done | by apply elem_of_reverse].
  - rewrite decide_False by (by rewrite elem_of_reverse).
    apply reverse_cons.
Qed.

Lemma elem_of_first_seen (hs : list string) (h : string) :
  h ∈ first_seen hs <-> h ∈ hs.
Proof.
  unfold first_seen.
  by rewrite elem_of_reverse, elem_of_remove_dups, elem_of_reverse.
Qed.

Lemma occurrences_snoc (h k : string) (hs : list string) :
  occurrences h (hs ++ [k])
  = (occurrences h hs + if decide (k = h) then 1 else 0)%Z.
Proof.
  unfold occurrences. rewrite filter_app, length_app.
  rewrite filter_cons, filter_nil.
  destruct (decide (k = h)); cbn; lia.
Qed.

Lemma occurrences_absent (h : string) (hs : list string) :
  h ∉ hs -> occurrences h hs = 0%Z.
Proof.
  intros Hnin. unfold occurrences.
  induction hs as [|k hs IH]; [done|].
  apply not_elem_of_cons in Hnin as [Hne Hnin].
  rewrite filter_cons, decide_False by congruence. by apply IH.
Qed.

Lemma query_headers_loop (self : QdrantClient) (collection_name : string)
    (vectors_count : Z) (documents : list Document)
    (processed : list (string * Processed)) (seen : list string) :
  Forall (well_formed self collection_name vectors_count) documents ->
  processed.*1 = first_seen seen ->
  (forall h e, dict_get h processed = Some e -> score e = occurrences h seen) ->
  exists processed',
    for_each (query_headers_step self collection_name vectors_count)
      processed documents = Ok processed'
    /\ processed'.*1 = first_seen (seen ++ headers_of documents)
    /\ (forall h e, dict_get h processed' = Some e ->
                    score e = occurrences h (seen ++ headers_of documents)).
Proof.
  intros Hwf. revert processed seen.
  induction Hwf as [|doc documents (h & dn & did & points & Hh & Hdn & Hdid & Hq) _ IH];
    intros processed seen Hkeys Hscore.
  - exists processed. cbn. rewrite app_nil_r. done.
  - assert (Hhs : headers_of (doc :: documents) = h :: headers_of documents).
    { unfold headers_of. cbn. by rewrite Hh. }
    rewrite Hhs, (cons_middle h seen), app_assoc.
    cbn [for_each]. unfold query_headers_step at 1.
    rewrite Hh. cbn [getitem bind].
    destruct (dict_get h processed) as [entry|] eqn:Hget.
    + assert (Hin : h ∈ seen).
      { apply elem_of_first_seen. rewrite <- Hkeys.
        apply dec_stable. intros Hn. apply dict_get_None in Hn. congruence. }
      cbn [bind]. apply IH.
      * rewrite dict_set_keys, first_seen_snoc, <- Hkeys.
        rewrite decide_True by (by rewrite Hkeys, elem_of_first_seen).
        by rewrite decide_True.
      * intros k e. rewrite dict_get_set, occurrences_snoc.
        destruct (decide (k = h)) as [->|Hne].
        -- intros [= <-]. cbn. rewrite (Hscore h entry Hget).
           by rewrite decide_True.
        -- intros Hk. rewrite (Hscore k e Hk).
           rewrite decide_False by congruence. lia.
    + assert (Hnin : h ∉ seen).
      { rewrite <- elem_of_first_seen, <- Hkeys. by apply dict_get_None. }
      rewrite Hdn. cbn [getitem bind]. rewrite Hq. cbn [bind]. rewrite Hdid.
      cbn [getitem bind]. apply IH.
      * rewrite dict_set_keys, first_seen_snoc, <- Hkeys.
        rewrite decide_False by (by rewrite Hkeys, elem_of_first_seen).
        by rewrite decide_False.
      * intros k e. rewrite dict_get_set, occurrences_snoc.
        destruct (decide (k = h)) as [->|Hne].
        -- intros [= <-]. cbn. rewrite (occurrences_absent h seen Hnin).
           by rewrite decide_True.
        -- intros Hk. rewrite (Hscore k e Hk).
           rewrite decide_False by congruence. lia.
Qed.

(** What the loop of [query_headers] computes on well-formed chunks: one
    entry per distinct headers value, in order of first occurrence, whose
    score is the number of chunks with that headers value, whatever their
    document_name. *)
Lemma process_documents_by_headers (self : QdrantClient)
      (documents : list Document) (collection_name : string) (n : Z) :
  points_count self collection_name = Ok n ->
  Forall (well_formed self collection_name n) documents ->
  exists processed,
    process_documents self documents collection_name = Ok processed
    /\ processed.*1 = first_seen (headers_of documents)
    /\ (forall h e, dict_get h processed = Some e ->
                    score e = occurrences h (headers_of documents)).
Proof.
  intros Hn Hwf. unfold process_documents. rewrite Hn. cbn [bind].
  by apply (query_headers_loop self collection_name n documents [] []).
Qed.


(** C2, at an input where the code departs from it.  The two chunks
    carry the keys (policy.pdf, Returns) and (faq.pdf, Returns): two
    distinct (document_name, headers) keys, each occurring once.
    [processed_documents] is keyed by the headers alone, so the second
    chunk is counted as a recurrence of the first: one section comes
    back, that of policy.pdf, with score 2, and none for faq.pdf. *)
Lemma query_headers_same_headers_two_documents :
  exists section,
    process_documents Examples.qdrant_demo Examples.same_headers_chunks "alpha"
    = Ok [("Returns", {| document := section; score := 2 |})]
    /\ document_name (metadata section) = Some "policy.pdf"
    /\ query_headers Examples.qdrant_demo Examples.same_headers_chunks "alpha"
       = Ok [section].
Proof. eexists. vm_compute. repeat split. Qed.

End Reassembly.

(** ** Reranking inside retrieval *)
Module Reranking.
Import Qdrant Retrieval PyFacts.

(** *** Candidates with pairwise distinct texts *)
Lemma omap_sublist {A B} (f : A -> option B) (l1 l2 : list A) :
  l1 `sublist_of` l2 -> omap f l1 `sublist_of` omap f l2.
Proof.
  induction 1 as [|x l1 l2 _ IH|x l1 l2 _ IH]; cbn.
  - constructor.
  - destruct (f x); [by constructor | done].
  - destruct (f x); [by constructor | done].
Qed.

Lemma omap_fmap {A B C} (f : B -> option C) (g : A -> B) (l : list A) :
  omap f (g <$> l) = omap (fun x => f (g x)) l.
Proof. induction l as [|x l IH]; cbn; [done|]. by rewrite IH. Qed.

Lemma omap_lookup_seq {A} (l : list A) :
  omap (fun i => l !! i) (seq 0 (length l)) = l.
Proof.
  induction l as [|x l IH]; [done|].
  cbn [length seq]. rewrite <- fmap_S_seq.
  change (omap (fun i => (x :: l) !! i) (0 :: (S <$> seq 0 (length l))))
    with (x :: omap (fun i => (x :: l) !! i) (S <$> seq 0 (length l))).
  rewrite omap_fmap.
  change (omap (fun i => (x :: l) !! S i) (seq 0 (length l)))
    with (omap (fun i => l !! i) (seq 0 (length l))).
  by rewrite IH.
Qed.

Lemma map_result_Forall2 {A B} (f : A -> result B) (l : list A) (ys : list B) :
  map_result f l = Ok ys -> Forall2 (fun x y => f x = Ok y) l ys.
Proof.
  revert ys. induction l as [|x l IH]; intros ys; cbn.
  - intros [= <-]. constructor.
  - destruct (f x) as [y|] eqn:Hx; cbn; [|done].
    destruct (map_result f l) as [ys'|]; cbn; [|done].
    intros [= <-]. constructor; [done | by apply IH].
Qed.

(** The dict comprehension keeps, for every text, the last candidate
    with that text; when the texts are pairwise distinct that is the
    candidate itself. *)
Lemma content_map_lookup (key : Document -> string) (candidates : list Document)
    (m0 : gmap string Document) :
  NoDup (key <$> candidates) ->
  (forall c, c ∈ candidates ->
     foldl (fun m candidate => <[key candidate := candidate]> m) m0 candidates
       !! key c = Some c)
  /\ (forall k, k ∉ key <$> candidates ->
        foldl (fun m candidate => <[key candidate := candidate]> m) m0 candidates
          !! k = m0 !! k).
Proof.
  revert m0. induction candidates as [|x l IH]; intros m0 Hnd.
  - split; [intros c Hc; by apply elem_of_nil in Hc | done].
  - apply NoDup_cons in Hnd as [Hx Hnd]. cbn [foldl].
    destruct (IH (<[key x := x]> m0) Hnd) as [IHin IHout]. split.
    + intros c [->|Hc]%elem_of_cons; [|by apply IHin].
      rewrite IHout by done. apply lookup_insert_eq.
    + intros k Hk. cbn in Hk. apply not_elem_of_cons in Hk as [Hne Hk].
      rewrite IHout by done. by apply lookup_insert_ne.
Qed.

Lemma zip_filter_indices (threshold : Q) (key : nat -> Q) (l : list nat) :
  map fst (filter (fun p : nat * Q => Qle_bool threshold p.2 = true)
                  (zip l (map key l)))
  = filter (fun i => Qle_bool threshold (key i) = true) l.
Proof.
  induction l as [|i l IH]; [done|].
  cbn [map zip zip_with]. rewrite !filter_cons. cbn [snd].
  destruct (decide (Qle_bool threshold (key i) = true)); cbn; by rewrite IH.
Qed.

Lemma map_back (key : Document -> string) (query : option string)
    (candidates : list Document) (indices : list nat) :
  NoDup (key <$> candidates) ->
  Forall (fun i => i < length candidates) indices ->
  exists contents,
    map_result
      (fun index =>
         let* p := list_getitem
                     (map (fun candidate => (query, key candidate)) candidates)
                     index in
         Ok p.2)
      indices = Ok contents
    /\ omap (fun content =>
               foldl (fun m candidate => <[key candidate := candidate]> m)
                     (∅ : gmap string Document) candidates !! content)
            contents
       = omap (fun i => candidates !! i) indices.
Proof.
  intros Hnd. induction 1 as [|i indices Hi _ (contents & Hc & Hm)].
  - by exists [].
  - apply lookup_lt_is_Some_2 in Hi as [c Hci].
    exists (key c :: contents). split.
    + cbn [map_result]. unfold list_getitem at 1.
      rewrite list_lookup_fmap, Hci. cbn. by rewrite Hc.
    + cbn. rewrite Hci, Hm.
      destruct (content_map_lookup key candidates ∅ Hnd) as [Hin _].
      rewrite (Hin c); [done|]. by eapply list_elem_of_lookup_2.
Qed.

#[local] Instance Qge_trans_scores (scores : list Q) :
  Transitive (fun a b : nat => Qltb (scores !!! a) (scores !!! b) = false).
Proof.
  intros a b c. rewrite !Qltb_false. intros ? ?. lra.
Qed.

Lemma StronglySorted_omap {A B} (R : relation A) (R' : relation B)
    (f : A -> option B) (l : list A) :
  (forall a b x y, a ∈ l -> b ∈ l -> f a = Some x -> f b = Some y ->
                   R a b -> R' x y) ->
  StronglySorted R l -> StronglySorted R' (omap f l).
Proof.
  intros HR Hs. induction Hs as [|a l Hs IH Hall]; cbn; [constructor|].
  assert (IH' : StronglySorted R' (omap f l)).
  { apply IH. intros ? ? ? ? ? ?. apply HR; by apply list_elem_of_further. }
  destruct (f a) as [x|] eqn:Hfa; [|done].
  constructor; [done|].
  apply Forall_forall. intros y [b [Hb Hfb]]%list_elem_of_omap.
  apply (HR a b); [apply list_elem_of_here | by apply list_elem_of_further
                  | done | done |].
  rewrite Forall_forall in Hall. by apply Hall.
Qed.

Lemma StronglySorted_filter {A} (R : relation A) (P : A -> Prop)
    `{!forall x, Decision (P x)} (l : list A) :
  StronglySorted R l -> StronglySorted R (filter P l).
Proof.
  induction 1 as [|a l Hs IH Hall]; [constructor|].
  rewrite filter_cons. destruct (decide (P a)); [|done].
  constructor; [done|].
  apply Forall_forall. intros b [_ Hb]%list_elem_of_filter.
  rewrite Forall_forall in Hall. by apply Hall.
Qed.

(** On a non-empty candidate list the function is its main branch. *)
Lemma reranking_nonempty (reranker : FlagReranker)
    (candidates : list Document) (query : option string) (threshold : Q) :
  candidates <> [] ->
  _query_retrieval_reranking reranker candidates query threshold
  = (let query_docs_pair :=
       map (fun candidate => (query, strip (page_content candidate)))
           candidates in
     let* scores := compute_score reranker query_docs_pair in
     let sorted_indices :=
       sorted_reverse (fun x y => Qltb (scores !!! x) (scores !!! y))
                      (seq 0 (length scores)) in
     let sorted_scores := map (fun i => scores !!! i) sorted_indices in
     let filtered_indices :=
       map fst (filter (fun p => Qle_bool threshold p.2 = true)
                       (zip sorted_indices sorted_scores)) in
     let* rerank_content :=
       map_result (fun index =>
                     let* p := list_getitem query_docs_pair index in Ok p.2)
                  filtered_indices in
     let content_to_results_map : gmap string Document :=
       foldl (fun m candidate =>
                <[strip (page_content candidate) := candidate]> m)
             ∅ candidates in
     Ok (omap (fun content => content_to_results_map !! content)
              rerank_content)).
Proof. by destruct candidates. Qed.

(** When the stripped texts of the candidates are pairwise distinct and
    the scorer answers, the result is a selection of the candidates (each
    at most as often as in the input), every returned candidate scores at
    least the threshold, and the scores descend. *)
Theorem reranking_distinct_texts (reranker : FlagReranker)
    (candidates : list Document) (query : option string) (threshold : Q)
    (scores : list Q) :
  NoDup (map (fun c => strip (page_content c)) candidates) ->
  compute_score reranker
    (map (fun c => (query, strip (page_content c))) candidates) = Ok scores ->
  exists result_,
    _query_retrieval_reranking reranker candidates query threshold = Ok result_
    /\ result_ ⊆+ candidates
    /\ Forall (fun d => exists s,
                   score_pair reranker query (strip (page_content d)) = Ok s
                   /\ (threshold <= s)%Q) result_
    /\ StronglySorted
         (fun a b => exists sa sb,
              score_pair reranker query (strip (page_content a)) = Ok sa
              /\ score_pair reranker query (strip (page_content b)) = Ok sb
              /\ (sb <= sa)%Q) result_.
Proof.
  intros Hnd Hscores.
  destruct (decide (candidates = [])) as [->|Hne].
  { exists []. repeat split; constructor. }
  rewrite (reranking_nonempty _ _ _ _ Hne). cbv zeta.
  apply map_result_Forall2 in Hscores as Hall.
  rewrite Forall2_fmap_l in Hall. cbn [fst snd] in Hall.
  pose proof (Forall2_length _ _ _ Hall) as Hlen.
  rewrite Hscores. cbn [bind].
  rewrite (zip_filter_indices threshold (fun i => scores !!! i)).
  set (lt := fun x y : nat => Qltb (scores !!! x) (scores !!! y)).
  set (sorted_indices := sorted_reverse lt (seq 0 (length scores))).
  assert (Hperm : sorted_indices ≡ₚ seq 0 (length candidates)).
  { rewrite Hlen. apply sorted_reverse_Permutation. }
  assert (Hsorted : StronglySorted (fun a b => lt a b = false) sorted_indices).
  { apply Sorted_StronglySorted; [apply Qge_trans_scores|].
    apply sorted_reverse_Sorted. intros a b. unfold lt.
    rewrite Qltb_true, Qltb_false. lra. }
  set (filtered := filter (fun i => Qle_bool threshold (scores !!! i) = true)
                          sorted_indices).
  assert (Hrange : Forall (fun i => i < length candidates) filtered).
  { apply Forall_forall. intros i [_ Hi]%list_elem_of_filter.
    rewrite Hperm in Hi. apply elem_of_seq in Hi. lia. }
  destruct (map_back (fun c => strip (page_content c)) query candidates
              filtered Hnd Hrange) as (contents & Hcontents & Hback).
  cbv beta in Hcontents, Hback.
  assert (Hscore_at : forall i d, candidates !! i = Some d ->
             score_pair reranker query (strip (page_content d))
             = Ok (scores !!! i)).
  { intros i d Hd.
    destruct (Forall2_lookup_l _ _ _ _ _ Hall Hd) as (s & Hs & Hsd).
    by rewrite (list_lookup_total_correct _ _ _ Hs). }
  exists (omap (fun i => candidates !! i) filtered).
  repeat split.
  - rewrite Hcontents. cbn [bind]. by rewrite Hback.
  - transitivity (omap (fun i => candidates !! i) (seq 0 (length candidates))).
    + rewrite <- Hperm.
      apply sublist_submseteq, omap_sublist, sublist_filter.
    + by rewrite omap_lookup_seq.
  - apply Forall_forall. intros d (i & Hi & Hd)%list_elem_of_omap.
    apply list_elem_of_filter in Hi as [Hle _].
    exists (scores !!! i). split; [by apply Hscore_at|].
    by apply Qle_bool_iff.
  - apply (StronglySorted_omap (fun a b => lt a b = false)).
    + intros a b x y _ _ Ha Hb Hab.
      exists (scores !!! a), (scores !!! b).
      split; [by apply Hscore_at|]. split; [by apply Hscore_at|].
      by apply Qltb_false.
    + by apply StronglySorted_filter.
Qed.

(** *** Duplicate texts, and collections the index does not know *)

(** C3, at an input where the code departs from it.  Two candidates
    with the same stripped text and different metadata both pass the
    threshold.  [content_to_results_map] is keyed by the text, so both
    positions map back to the later candidate: the result holds the
    faq.pdf chunk twice and the policy.pdf chunk not at all, which is
    no selection of the input candidates. *)
Lemma reranking_same_text_two_documents :
  exists first_ second_,
    Examples.same_text_chunks = [first_; second_]
    /\ first_ <> second_
    /\ _query_retrieval_reranking Examples.reranker_demo
         Examples.same_text_chunks (Some "refund") 0.3
       = Ok [second_; second_].
Proof.
  do 2 eexists. split; [reflexivity|]. split; [|vm_compute; reflexivity].
  discriminate.
Qed.

(** C4. A collection the index does not know is an empty result.  When
    [collection_exists] answers [False], [qdrant_retrieval] returns the
    empty list; the search underneath, [hybrid_search], does raise for
    such a collection, and [qdrant_retrieval] (a total function: its
    whole body sits in [try ... except Exception: return []]) turns that
    and any other exception of the body into the empty list as well. *)
Theorem qdrant_retrieval_missing_collection
    (client : QdrantClient) (reranker : FlagReranker) (query : QueryArg)
    (top_k : Z) (collection_name : string) :
  collection_exists client collection_name = Ok false ->
  qdrant_retrieval client reranker query top_k collection_name = []
  /\ (exists e, hybrid_search client (query_text query) collection_name
                = Raise e)
  /\ (forall name e,
        qdrant_retrieval_body client reranker (query_text query) top_k name
        = Raise e ->
        qdrant_retrieval client reranker query top_k name = []).
Proof.
  intros Hex. repeat split.
  - unfold qdrant_retrieval, qdrant_retrieval_body. by rewrite Hex.
  - unfold hybrid_search. rewrite Hex. cbn. by eexists.
  - intros name e Hbody. unfold qdrant_retrieval. by rewrite Hbody.
Qed.

Lemma qdrant_retrieval_missing_collection_witness :
  qdrant_retrieval Examples.qdrant_demo Examples.reranker_demo
    (QueryStr "refund") 5 "never-ingested" = [].
Proof.
  apply (qdrant_retrieval_missing_collection Examples.qdrant_demo
           Examples.reranker_demo (QueryStr "refund") 5 "never-ingested").
  reflexivity.
Defined.

End Reranking.

(** ** The rerank endpoint's handler *)
Module RerankBatch.
Import Rerank.

Lemma map_result_raise {A B} (f : A -> result B) (l : list A) (x : A) e :
  x ∈ l -> f x = Raise e -> exists e', map_result f l = Raise e'.
Proof.
  induction 1 as [x l|x y l Hin IH]; intros Hx; cbn.
  - rewrite Hx. by eexists.
  - destruct (f y); cbn; [|by eexists].
    destruct (IH Hx) as [e' ->]. by eexists.
Qed.

(** C7, as stated, fails.  The model scores "good" and raises on
    "bad".  Alone, the good candidate is returned with score 1; in a
    batch with the bad one, nothing is returned. *)
Lemma process_candidates_counterexample :
  process_candidates Examples.model_demo
    [Examples.candidate "good" "d1"] (Some "q") 0.3
  = [ {| r_doc_id := "d1"; r_score := 1; r_content := "good";
         r_organization_id := None |} ]
  /\ process_candidates Examples.model_demo
       [Examples.candidate "good" "d1"; Examples.candidate "bad" "d2"]
       (Some "q") 0.3
     = [].
Proof. vm_compute. split; reflexivity. Qed.

(** C7, amended.  If the scorer raises on any one candidate of the
    batch, [process_candidates] returns the empty list for the whole
    batch, without raising: none of the remaining candidates is
    returned. *)
Theorem process_candidates_batch_failure
    (self : Model) (candidates : list Candidate) (query : option string)
    (threshold : Q) (c : Candidate) (e : exn) :
  c ∈ candidates ->
  encode self (content c) = Raise e ->
  process_candidates self candidates query threshold = [].
Proof.
  intros Hin He. unfold process_candidates.
  destruct (negb (truthy_opt query) || is_empty candidates); [done|].
  unfold process_candidates_body.
  edestruct (map_result_raise
               (fun candidate =>
                  let* resp :=
                    request_ranking_triton_kserve self (content candidate) in
                  let* out := list_getitem resp 0 in
                  match data out with
                  | Some embedding => Ok embedding
                  | None => Ok []
                  end) candidates c) as [e' ->]; [done| |done].
  unfold request_ranking_triton_kserve. by rewrite He.
Qed.

Lemma process_candidates_batch_failure_witness :
  process_candidates Examples.model_demo
    [Examples.candidate "good" "d1"; Examples.candidate "bad" "d2"]
    (Some "q") 0.3
  = [].
Proof.
  apply (process_candidates_batch_failure Examples.model_demo _ _ _
           (Examples.candidate "bad" "d2") (Exception "encode")).
  - apply list_elem_of_further, list_elem_of_here.
  - reflexivity.
Defined.

End RerankBatch.

(** ** The multi-collection fan-out *)
Module FanOut.
Import Qdrant MultiCollection.

Lemma sorted_reverse_constant_key {A} (lt : A -> A -> bool) (l : list A) :
  (forall x y, lt x y = false) -> sorted_reverse lt l = l.
Proof.
  intros Hlt. unfold sorted_reverse.
  induction l as [|x l IH]; [done|].
  cbn [foldr]. rewrite IH. destruct l as [|y l]; [done|].
  cbn. by rewrite Hlt.
Qed.

Lemma flat_map_zip_map {A B C} (f : A -> B) (g : A * B -> list C)
    (l : list A) :
  flat_map g (zip l (map f l)) = flat_map (fun a => g (a, f a)) l.
Proof. induction l as [|a l IH]; [done|]. cbn. by rewrite IH. Qed.

(** The pool [retrieve_from_collections] returns. *)
Lemma retrieve_from_collections_pool (env : Env) (query user_id : string)
    (organization_id_ : option string) (top_k : Z)
    (include_personal include_organizational : bool) :
  retrieve_from_collections env query user_id organization_id_ top_k
    include_personal include_organizational
  = slice_to top_k
      (flat_map (collection_results env query top_k)
         (Collections.get_user_collections (db env) user_id organization_id_
            include_personal include_organizational)).
Proof.
  unfold retrieve_from_collections. cbn [try_except].
  rewrite sorted_reverse_constant_key by (intros; apply Z.ltb_irrefl).
  rewrite map_map.
  by rewrite (flat_map_zip_map
                (fun ci => Retrieval.qdrant_retrieval (client env)
                             (reranker env) (Retrieval.QueryStr query) top_k
                             (Collections.ci_collection_name ci))
                (fun ir => map (tag ir.1) ir.2)).
Qed.

(** C10. The final sort compares a constant key: [getattr_score] is 0
    for every document, so the sort changes nothing, and the result is
    the concatenation of the collections' ranked result lists, in the
    order [get_user_collections] lists the collections, cut by
    [[:top_k]]. *)
Theorem merged_order_is_concatenation (env : Env) (query user_id : string)
    (organization_id_ : option string) (top_k : Z)
    (include_personal include_organizational : bool) :
  (forall doc : Document, getattr_score (metadata doc) 0 = 0%Z)
  /\ retrieve_from_collections env query user_id organization_id_ top_k
       include_personal include_organizational
     = slice_to top_k
         (flat_map (collection_results env query top_k)
            (Collections.get_user_collections (db env) user_id
               organization_id_ include_personal include_organizational)).
Proof. split; [done | apply retrieve_from_collections_pool]. Qed.

(** C8. Fan-out isolation.  When the search of one resolved collection
    raises, [retrieve_from_collections] returns what the other
    collections return, in their order: the failing collection
    contributes nothing and the others' results are what they are
    without it. *)
Theorem fan_out_isolation (env : Env) (query user_id : string)
    (organization_id_ : option string) (top_k : Z)
    (include_personal include_organizational : bool)
    (before after : list Collections.CollectionInfo)
    (failing : Collections.CollectionInfo) (e : exn) :
  Collections.get_user_collections (db env) user_id organization_id_
    include_personal include_organizational
  = (before ++ failing :: after)%list ->
  Retrieval.qdrant_retrieval_body (client env) (reranker env) (Some query)
    top_k (Collections.ci_collection_name failing) = Raise e ->
  collection_results env query top_k failing = []
  /\ retrieve_from_collections env query user_id organization_id_ top_k
       include_personal include_organizational
     = slice_to top_k
         (flat_map (collection_results env query top_k) before
          ++ flat_map (collection_results env query top_k) after)%list.
Proof.
  intros Hcs Hfail.
  assert (Hnone : collection_results env query top_k failing = []).
  { unfold collection_results, Retrieval.qdrant_retrieval.
    cbn [Retrieval.query_text]. by rewrite Hfail. }
  split; [done|].
  rewrite retrieve_from_collections_pool, Hcs, flat_map_app.
  cbn [flat_map]. by rewrite Hnone.
Qed.

Lemma fan_out_isolation_witness :
  retrieve_from_collections Examples.env_demo "refund" "alice" None 5
    true true
  = slice_to 5
      (flat_map (collection_results Examples.env_demo "refund" 5)
         [ {| Collections.ci_id := "1";
              Collections.ci_collection_name := "alpha";
              Collections.ci_is_personal := true;
              Collections.ci_organization_id := None;
              Collections.ci_user_id := "alice" |} ]
       ++ flat_map (collection_results Examples.env_demo "refund" 5) [])%list.
Proof.
  eapply (fan_out_isolation Examples.env_demo "refund" "alice" None 5
            true true _ _
            {| Collections.ci_id := "2";
               Collections.ci_collection_name := "docs";
               Collections.ci_is_personal := true;
               Collections.ci_organization_id := None;
               Collections.ci_user_id := "alice" |});
    reflexivity.
Defined.

End FanOut.

(** ** The rerank handler and its endpoint *)
Module RerankFacts.
Import Rerank PyFacts.

Lemma bind_Ok {A B} (r : result A) (k : A -> result B) (y : B) :
  bind r k = Ok y -> exists x, r = Ok x /\ k x = Ok y.
Proof. destruct r as [x|e]; cbn; [eauto | done]. Qed.

Lemma map_result_Ok {A B} (f : A -> result B) (l : list A) :
  Forall (fun x => exists y, f x = Ok y) l ->
  exists ys, map_result f l = Ok ys /\ Forall2 (fun x y => f x = Ok y) l ys.
Proof.
  induction 1 as [|x l [y Hy] _ (ys & Hys & Hall)]; cbn.
  - exists []. split; [done | constructor].
  - rewrite Hy, Hys. cbn. exists (y :: ys). split; [done | by constructor].
Qed.

Lemma pad_or_truncate_size (embedding : list Q) (target_size : nat) :
  length (pad_or_truncate embedding target_size) = target_size.
Proof.
  unfold pad_or_truncate.
  destruct (target_size <? length embedding)%nat eqn:Hlt.
  - apply Nat.ltb_lt in Hlt. rewrite length_take. lia.
  - apply Nat.ltb_ge in Hlt.
    destruct (length embedding <? target_size)%nat eqn:Hlt'.
    + apply Nat.ltb_lt in Hlt'. rewrite length_app, length_replicate. lia.
    + apply Nat.ltb_ge in Hlt'. lia.
Qed.

(** X1.  [pad_or_truncate] returns a vector of exactly the target size: a
    shorter input is kept and padded, a longer one is cut to its first
    [target_size] entries. *)
Theorem pad_or_truncate_length (embedding : list Q) (target_size : nat) :
  length (pad_or_truncate embedding target_size) = target_size
  /\ (length embedding <= target_size ->
      take (length embedding) (pad_or_truncate embedding target_size)
      = embedding)
  /\ (target_size <= length embedding ->
      pad_or_truncate embedding target_size = take target_size embedding).
Proof.
  unfold pad_or_truncate.
  destruct (target_size <? length embedding)%nat eqn:Hlt.
  - apply Nat.ltb_lt in Hlt. repeat split.
    + rewrite length_take. lia.
    + lia.
  - apply Nat.ltb_ge in Hlt.
    destruct (length embedding <? target_size)%nat eqn:Hlt'.
    + apply Nat.ltb_lt in Hlt'. repeat split.
      * rewrite length_app, length_replicate. lia.
      * intros _. by rewrite take_app_length.
      * lia.
    + apply Nat.ltb_ge in Hlt'. repeat split.
      * lia.
      * intros _. by rewrite firstn_all.
      * intros _. assert (target_size = length embedding) as -> by lia.
        by rewrite firstn_all.
Qed.

(** The scores dict keeps its keys distinct. *)
Lemma for_each_dict_NoDup {K V A} `{EqDecision K}
    (body : list (K * V) -> A -> result (list (K * V))) (l : list A)
    (d d' : list (K * V)) :
  (forall d x d1, body d x = Ok d1 -> exists k v, d1 = dict_set k v d) ->
  for_each body d l = Ok d' -> NoDup d.*1 -> NoDup d'.*1.
Proof.
  intros Hbody. revert d. induction l as [|x l IH]; intros d; cbn.
  - by intros [= <-].
  - intros (d1 & Hd1 & Hrest)%bind_Ok Hnd.
    apply (IH d1 Hrest).
    destruct (Hbody d x d1 Hd1) as (k & v & ->).
    rewrite dict_set_keys. destruct (decide (k ∈ d.*1)); [done|].
    apply NoDup_app. split; [done|]. split.
    + intros k' Hk' ->%list_elem_of_singleton. done.
    + apply NoDup_singleton.
Qed.

Lemma for_each_dict_keys {K V A} `{EqDecision K}
    (body : list (K * V) -> A -> result (list (K * V))) (key : A -> K)
    (l : list A) (d d' : list (K * V)) :
  (forall d x d1, body d x = Ok d1 -> exists v, d1 = dict_set (key x) v d) ->
  for_each body d l = Ok d' ->
  forall k, k ∈ d'.*1 -> k ∈ d.*1 \/ k ∈ key <$> l.
Proof.
  intros Hbody. revert d. induction l as [|x l IH]; intros d; cbn.
  - intros [= <-] k Hk. by left.
  - intros (d1 & Hd1 & Hrest)%bind_Ok k Hk.
    destruct (IH d1 Hrest k Hk) as [Hin|Hin].
    + destruct (Hbody d x d1 Hd1) as (v & ->).
      rewrite dict_set_keys in Hin.
      destruct (decide (key x ∈ d.*1)); [by left|].
      apply elem_of_app in Hin as [? | ->%list_elem_of_singleton]; [by left|].
      right. apply list_elem_of_here.
    + right. by apply list_elem_of_further.
Qed.

Lemma score_ge_trans :
  Transitive (fun a b : string * Q => Qltb a.2 b.2 = false).
Proof. intros a b c. rewrite !Qltb_false. intros ? ?. lra. Qed.

Lemma rerank_embeddings_ranked (self : Model) (embeddings : list (list Q))
    (query_embedding : list Q) (candidates : list Candidate)
    (ranked : list (string * Q)) :
  rerank_embeddings self embeddings query_embedding candidates = Ok ranked ->
  NoDup ranked.*1
  /\ StronglySorted (fun a b => Qltb a.2 b.2 = false) ranked
  /\ (forall k, k ∈ ranked.*1 -> k ∈ doc_id <$> candidates).
Proof.
  unfold rerank_embeddings. intros (scores & Hscores & [= <-])%bind_Ok.
  assert (Hstep : forall (d : list (string * Q)) (ce : Candidate * list Q) d1,
             (if (0 <? length ce.2)%nat && (0 <? length query_embedding)%nat
              then let* s := cosine_similarity self ce.2 query_embedding in
                   Ok (dict_set (doc_id ce.1) s d)
              else Ok (dict_set (doc_id ce.1) 0%Q d)) = Ok d1 ->
             exists v, d1 = dict_set (doc_id ce.1) v d).
  { intros d ce d1. destruct (_ && _).
    - intros (sc & _ & [= <-])%bind_Ok. by eexists.
    - intros [= <-]. by eexists. }
  pose proof (sorted_reverse_Permutation
                (fun a b : string * Q => Qltb a.2 b.2) scores) as Hperm.
  repeat split.
  - rewrite Hperm.
    eapply (for_each_dict_NoDup _ _ [] scores); [|exact Hscores|constructor].
    intros d x d1 Hd. destruct (Hstep d x d1 Hd) as [v ->]. by do 2 eexists.
  - apply Sorted_StronglySorted; [apply score_ge_trans|].
    apply sorted_reverse_Sorted. intros a b.
    rewrite Qltb_true, Qltb_false. lra.
  - intros k Hk. rewrite Hperm in Hk.
    destruct (for_each_dict_keys _ (fun ce : Candidate * list Q => doc_id ce.1)
                _ [] scores Hstep Hscores k Hk) as [Hin|Hin].
    + by apply elem_of_nil in Hin.
    + apply list_elem_of_fmap in Hin as ([c e] & -> & Hce).
      apply elem_of_zip_l in Hce. by apply list_elem_of_fmap_2.
Qed.

(** What [process_candidates_body] is for every threshold at once: it
    raises, or it filters one ranked list. *)
Lemma process_candidates_body_shape (self : Model)
    (candidates : list Candidate) (query : string) :
  (exists e, forall threshold,
      process_candidates_body self candidates query threshold = Raise e)
  \/ (exists ranked,
        (forall threshold,
            process_candidates_body self candidates query threshold
            = Ok (filter (fun item => Qle_bool threshold (r_score item) = true)
                         (omap (mapped_item candidates) ranked)))
        /\ NoDup ranked.*1
        /\ StronglySorted (fun a b => Qltb a.2 b.2 = false) ranked
        /\ (forall k, k ∈ ranked.*1 -> k ∈ doc_id <$> candidates)).
Proof.
  unfold process_candidates_body.
  destruct (map_result _ candidates) as [embeddings|e]; cbn [bind];
    [|left; by exists e].
  destruct (request_ranking_triton_kserve self query) as [query_resp|e];
    cbn [bind]; [|left; by exists e].
  destruct (list_getitem query_resp 0) as [query_out|e]; cbn [bind];
    [|left; by exists e].
  destruct (max_list _ =? 0)%nat.
  { right. exists []. repeat split; try constructor.
    intros k Hk. by apply elem_of_nil in Hk. }
  destruct (data query_out) as [q|]; cbn [bind]; [|left; by eexists].
  destruct (rerank_embeddings _ _ _ _) as [ranked|e] eqn:Hranked;
    cbn [bind]; [|left; by exists e].
  right. exists ranked. split; [done|].
  by apply rerank_embeddings_ranked in Hranked.
Qed.

Lemma mapped_item_Some (candidates : list Candidate) (ds : string * Q)
    (item : Ranked) :
  mapped_item candidates ds = Some item ->
  r_doc_id item = ds.1 /\ r_score item = ds.2
  /\ exists c, c ∈ candidates /\ doc_id c = ds.1
               /\ r_content item = content c.
Proof.
  unfold mapped_item.
  destruct (find _ candidates) as [c|] eqn:Hfind; [|done].
  intros [= <-]. cbn. repeat split.
  apply find_some in Hfind as [Hin Hid].
  exists c. repeat split; [by apply list_elem_of_In | by apply bool_decide_eq_true in Hid].
Qed.

Lemma omap_keys_sublist (candidates : list Candidate)
    (ranked : list (string * Q)) :
  r_doc_id <$> omap (mapped_item candidates) ranked `sublist_of` ranked.*1.
Proof.
  induction ranked as [|ds ranked IH]; cbn; [constructor|].
  destruct (mapped_item candidates ds) as [item|] eqn:Hitem; cbn.
  - apply mapped_item_Some in Hitem as (-> & _). by constructor.
  - by constructor.
Qed.

Lemma filter_sublist_impl {A} (P R : A -> Prop)
    `{!forall x, Decision (P x)} `{!forall x, Decision (R x)} (l : list A) :
  (forall x, P x -> R x) -> filter P l `sublist_of` filter R l.
Proof.
  intros Himpl. induction l as [|x l IH]; [constructor|].
  rewrite !filter_cons. destruct (decide (P x)) as [HP|HP].
  - rewrite decide_True by auto. by constructor.
  - destruct (decide (R x)); [by constructor | done].
Qed.

(** For every threshold at once, [process_candidates] filters one list. *)
Lemma process_candidates_filter (self : Model)
    (candidates : list Candidate) (query : option string) :
  exists mapped,
    forall threshold,
      process_candidates self candidates query threshold
      = filter (fun item => Qle_bool threshold (r_score item) = true) mapped.
Proof.
  unfold process_candidates.
  destruct (negb (truthy_opt query) || is_empty candidates); [by exists []|].
  destruct (process_candidates_body_shape self candidates (the query))
    as [[e He]|(ranked & Hbody & _)].
  - exists []. intros t. by rewrite He.
  - exists (omap (mapped_item candidates) ranked). intros t. by rewrite Hbody.
Qed.

(** X2.  What [process_candidates] returns, whatever the model does: every
    score is at least the threshold, the scores descend, no [doc_id]
    occurs twice, and every item carries the [doc_id] and content of
    one candidate. *)
Theorem process_candidates_result (self : Model)
    (candidates : list Candidate) (query : option string) (threshold : Q) :
  let result_ := process_candidates self candidates query threshold in
  Forall (fun item => (threshold <= r_score item)%Q) result_
  /\ StronglySorted (fun a b => (r_score b <= r_score a)%Q) result_
  /\ NoDup (r_doc_id <$> result_)
  /\ Forall (fun item => exists c, c ∈ candidates
                                   /\ doc_id c = r_doc_id item
                                   /\ content c = r_content item) result_.
Proof.
  unfold process_candidates.
  destruct (negb (truthy_opt query) || is_empty candidates).
  { cbn. repeat split; constructor. }
  destruct (process_candidates_body_shape self candidates (the query))
    as [[e He]|(ranked & Hbody & Hnd & Hsorted & Hkeys)].
  { rewrite He. cbn. repeat split; constructor. }
  rewrite Hbody. cbn [try_except]. repeat split.
  - apply Forall_forall. intros item [Hle _]%list_elem_of_filter.
    by apply Qle_bool_iff.
  - apply Reranking.StronglySorted_filter.
    apply (Reranking.StronglySorted_omap
             (fun a b : string * Q => Qltb a.2 b.2 = false)); [|done].
    intros a b x y _ _ (_ & -> & _)%mapped_item_Some
      (_ & -> & _)%mapped_item_Some Hab.
    by apply Qltb_false.
  - eapply sublist_NoDup; [exact Hnd|].
    etrans; [|apply omap_keys_sublist].
    apply fmap_sublist, sublist_filter.
  - apply Forall_forall.
    intros item [_ (ds & _ & Hitem)%list_elem_of_omap]%list_elem_of_filter.
    apply mapped_item_Some in Hitem as (-> & _ & c & Hc & Hid & ->).
    by exists c.
Qed.

(** X3.  Lowering the threshold of [process_candidates] only adds items:
    the result at the higher threshold is a sublist of the result at
    the lower one. *)
Theorem process_candidates_threshold_mono (self : Model)
    (candidates : list Candidate) (query : option string) (t t' : Q) :
  (t' <= t)%Q ->
  process_candidates self candidates query t
  `sublist_of` process_candidates self candidates query t'.
Proof.
  intros Hle.
  destruct (process_candidates_filter self candidates query) as [mapped H].
  rewrite !H. apply filter_sublist_impl. intros item.
  rewrite !Qle_bool_iff. lra.
Qed.

Lemma process_candidates_threshold_mono_witness :
  process_candidates Examples.model_demo [Examples.candidate "a" "d1"]
    (Some "q") 0.5
  `sublist_of` process_candidates Examples.model_demo
                 [Examples.candidate "a" "d1"] (Some "q") 0.1.
Proof.
  apply (process_candidates_threshold_mono Examples.model_demo
           [Examples.candidate "a" "d1"] (Some "q") 0.5 0.1).
  lra.
Defined.

Import RerankRoute.

(** X4.  The retry of [rerank_endpoint]: a non-empty first pass is the
    answer; after an empty first pass every item answered scores at
    least 0.1; and for a threshold of at most 0.1 the retry changes
    nothing. *)
Theorem rerank_endpoint_retry (self : Model)
    (candidates : list Candidate) (query : option string) (threshold : Q) :
  (process_candidates self candidates query threshold <> [] ->
   rerank_endpoint self candidates query threshold
   = process_candidates self candidates query threshold)
  /\ (process_candidates self candidates query threshold = [] ->
      Forall (fun item => (0.1 <= r_score item)%Q)
             (rerank_endpoint self candidates query threshold))
  /\ ((threshold <= 0.1)%Q ->
      rerank_endpoint self candidates query threshold
      = process_candidates self candidates query threshold).
Proof.
  unfold rerank_endpoint.
  destruct (process_candidates_filter self candidates query) as [mapped H].
  assert (Hsecond : Forall (fun item => (0.1 <= r_score item)%Q)
                      (process_candidates self candidates query 0.1)).
  { rewrite H. apply Forall_forall.
    intros item [Hle _]%list_elem_of_filter. by apply Qle_bool_iff. }
  destruct (process_candidates self candidates query threshold)
    as [|item result_] eqn:Hres.
  - cbn [length Nat.eqb andb]. repeat split.
    + done.
    + intros _. destruct (0 <? length candidates)%nat; [done|constructor].
    + intros Hle. destruct (0 <? length candidates)%nat; [|done].
      assert (Hsub : process_candidates self candidates query 0.1
                     `sublist_of` []).
      { rewrite <- Hres, !H. apply filter_sublist_impl. intros x.
        rewrite !Qle_bool_iff. lra. }
      by apply sublist_nil_r in Hsub.
  - cbn [length Nat.eqb andb]. repeat split; done.
Qed.

Lemma rerank_endpoint_retry_witness :
  rerank_endpoint Examples.model_demo [Examples.candidate "a" "d1"]
    (Some "q") 0.05
  = process_candidates Examples.model_demo [Examples.candidate "a" "d1"]
      (Some "q") 0.05.
Proof.
  apply (rerank_endpoint_retry Examples.model_demo
           [Examples.candidate "a" "d1"] (Some "q") 0.05).
  lra.
Defined.

Lemma for_each_Ok {S A} (body : S -> A -> result S) (l : list A) (s : S) :
  (forall s x, x ∈ l -> exists s', body s x = Ok s') ->
  exists s', for_each body s l = Ok s'.
Proof.
  revert s. induction l as [|x l IH]; intros s Hbody; cbn.
  - by exists s.
  - destruct (Hbody s x) as [s1 ->]; [apply list_elem_of_here|]. cbn.
    apply IH. intros s0 y Hy. apply Hbody. by apply list_elem_of_further.
Qed.

(** X5.  The body of [process_candidates] fails only when the model does:
    if every candidate and the query are embedded, it returns. *)
Theorem process_candidates_body_total (self : Model)
    (candidates : list Candidate) (query : string) (threshold : Q) :
  Forall (fun c => exists v, encode self (content c) = Ok v) candidates ->
  (exists v, encode self query = Ok v) ->
  exists result_,
    process_candidates_body self candidates query threshold = Ok result_.
Proof.
  intros Hcands [qv Hq]. unfold process_candidates_body.
  edestruct (map_result_Ok
               (fun candidate =>
                  let* resp :=
                    request_ranking_triton_kserve self (content candidate) in
                  let* out := list_getitem resp 0 in
                  match data out with
                  | Some embedding => Ok embedding
                  | None => Ok []
                  end) candidates) as (embeddings & -> & _).
  { eapply Forall_impl; [exact Hcands|]. cbn. intros c [v Hv].
    unfold request_ranking_triton_kserve. rewrite Hv. cbn. by eexists. }
  cbn [bind]. unfold request_ranking_triton_kserve at 1. rewrite Hq.
  cbn [bind list_getitem lookup list_lookup data].
  set (target_size := max_list _).
  destruct (target_size =? 0)%nat eqn:Htarget; [by eexists|].
  apply Nat.eqb_neq in Htarget. cbn [bind].
  unfold rerank_embeddings.
  edestruct (for_each_Ok
               (fun (scores : list (string * Q)) (ce : Candidate * list Q) =>
                  if (0 <? length ce.2)%nat
                     && (0 <? length (pad_or_truncate qv target_size))%nat
                  then
                    let* s := cosine_similarity self ce.2
                                (pad_or_truncate qv target_size) in
                    Ok (dict_set (doc_id ce.1) s scores)
                  else Ok (dict_set (doc_id ce.1) 0%Q scores))
               (zip candidates
                    (map (fun embedding => pad_or_truncate embedding target_size)
                         embeddings)) []) as [scores ->]; [|by eexists].
  intros scores [c e] Hce. cbn [fst snd].
  apply elem_of_zip_r, list_elem_of_fmap in Hce as (e0 & -> & _).
  pose proof (pad_or_truncate_size e0 target_size) as He.
  pose proof (pad_or_truncate_size qv target_size) as Hqv.
  rewrite He, Hqv.
  destruct (0 <? target_size)%nat; cbn [andb]; [|by eexists].
  unfold cosine_similarity, np_dot. rewrite He, Hqv, Nat.eqb_refl.
  destruct (target_size =? 0)%nat; cbn; [by eexists|].
  destruct (_ || _); by eexists.
Qed.

Lemma process_candidates_body_total_witness :
  exists result_,
    process_candidates_body Examples.model_demo
      [Examples.candidate "a" "d1"] "q" 0.5 = Ok result_.
Proof.
  apply (process_candidates_body_total Examples.model_demo
           [Examples.candidate "a" "d1"] "q" 0.5).
  - constructor; [by eexists | constructor].
  - by eexists.
Defined.
End RerankFacts.

(** ** The role service: caches, outages and unknown users *)
Module IdentityFacts.
Import Identity PyFacts RoleCache.

(** X6.  After [get_user_info_with_roles] has fetched a known user,
    [get_user_role] answers for every organization from the caches
    while the entry is fresh: the state does not change and no
    statement is sent. *)
Theorem lookup_warms_every_organization
    (db db' : MySQL) (self : UserRoleService) (log : list Sql)
    (u : string) (t t' : Q) :
  connected db = true ->
  cached_user_info self t u = None ->
  user_query db u <> [] ->
  (t' - t < _cache_ttl self)%Q ->
  forall o,
    exists r st,
      (get_user_info_with_roles db t u (self, log)).2 = st
      /\ get_user_role db' t' u o st = (r, st).
Proof.
  intros Hdb Huser Hfound Hin o.
  unfold get_user_info_with_roles, execute_query. cbn [fst snd].
  rewrite Huser, Hdb.
  destruct (user_query db u) as [|user_info rest]; [done|].
  destruct (foldl (role_row_step t u) (∅, [], self) (role_query db u))
    as [[roles orgs] self1] eqn:Hfold.
  apply role_rows_fold in Hfold as (Httl & Huc & Hrc).
  cbn [fst snd].
  set (info := FullInfo _).
  set (self2 := with_user_cache self1 _).
  set (log2 := ((log ++ _) ++ _)%list).
  assert (Hvalid : _is_cache_valid self2 t' t = true).
  { unfold _is_cache_valid. cbn. rewrite Httl. by apply Qltb_true. }
  unfold get_user_role.
  destruct (cached_role self2 t' (u, o)) as [r|] eqn:Hrole.
  - exists r, (self2, log2). cbn [fst snd]. by rewrite Hrole.
  - exists (roles !! o), (self2, log2). cbn [fst snd]. rewrite Hrole.
    unfold get_user_info_with_roles. cbn [fst snd].
    assert (Hhit : cached_user_info self2 t' u = Some info).
    { unfold cached_user_info. cbn [self2 with_user_cache _user_cache].
      by rewrite lookup_insert_eq, Hvalid. }
    by rewrite Hhit.
Qed.

Lemma lookup_warms_every_organization_witness :
  exists r st,
    (get_user_info_with_roles Examples.mysql_demo 0 "alice" (init, [])).2 = st
    /\ get_user_role Examples.mysql_demo 1 "alice" "orgO" st = (r, st).
Proof.
  apply (lookup_warms_every_organization Examples.mysql_demo
           Examples.mysql_demo init [] "alice" 0 1);
    [reflexivity | reflexivity | by vm_compute | reflexivity].
Defined.

Lemma clear_cache_user (self : UserRoleService) (u : string) :
  u <> "" ->
  clear_cache (Some u) None self
  = with_role_cache (with_user_cache self (delete u (_user_cache self)))
      (delete_keys (fun k => bool_decide (k.1 = u)) (_role_cache self)).
Proof.
  intros Hu. unfold clear_cache. cbn [truthy_opt].
  by rewrite (truthy_nonempty u Hu).
Qed.

Lemma clear_cache_pair (self : UserRoleService) (u o : string) :
  u <> "" -> o <> "" ->
  clear_cache (Some u) (Some o) self
  = with_role_cache self (delete (u, o) (_role_cache self)).
Proof.
  intros Hu Ho. unfold clear_cache. cbn [truthy_opt].
  by rewrite (truthy_nonempty u Hu), (truthy_nonempty o Ho).
Qed.

(** X7.  [clear_cache(user_id)] forces the next role lookup of that user to
    the store: two statements are sent, whatever was cached. *)
Theorem clear_cache_user_forces_lookup (db : MySQL) (self : UserRoleService)
    (log : list Sql) (u o : string) (t : Q) :
  u <> "" ->
  exists q,
    (get_user_role db t u o (clear_cache (Some u) None self, log)).2.2
    = (log ++ [SelectUser u; q])%list
    /\ (q = SelectUserRoles u \/ q = SelectRole u o).
Proof.
  intros Hu. rewrite (clear_cache_user self u Hu).
  apply get_user_role_miss_log.
  - unfold cached_role. cbn [with_role_cache _role_cache].
    rewrite lookup_delete_keys. cbn [fst].
    by rewrite bool_decide_eq_true_2.
  - unfold cached_user_info.
    cbn [with_role_cache with_user_cache _user_cache].
    by rewrite lookup_delete_eq.
Qed.

Lemma clear_cache_user_forces_lookup_witness :
  exists q,
    (get_user_role Examples.mysql_demo 1 "alice" "orgO"
       (clear_cache (Some "alice") None Examples.service_demo, [])).2.2
    = ([] ++ [SelectUser "alice"; q])%list
    /\ (q = SelectUserRoles "alice" \/ q = SelectRole "alice" "orgO").
Proof.
  by apply (clear_cache_user_forces_lookup Examples.mysql_demo
              Examples.service_demo [] "alice" "orgO" 1).
Defined.

(** X8.  [clear_cache(user_id, organization_id)] removes the role entry
    only: while the user-info entry is fresh, [get_user_role] still
    answers the role recorded there, without a statement and without
    refilling the role cache. *)
Theorem clear_cache_pair_keeps_user_info (db : MySQL)
    (self : UserRoleService) (log : list Sql) (u o : string) (t : Q)
    (p : Profile) :
  u <> "" -> o <> "" ->
  cached_user_info self t u = Some (FullInfo p) ->
  get_user_role db t u o (clear_cache (Some u) (Some o) self, log)
  = (p_roles p !! o, (clear_cache (Some u) (Some o) self, log)).
Proof.
  intros Hu Ho Hinfo. rewrite (clear_cache_pair self u o Hu Ho).
  unfold get_user_role, cached_role. cbn [fst snd with_role_cache _role_cache].
  rewrite lookup_delete_eq.
  unfold get_user_info_with_roles. cbn [fst snd].
  assert (Hsame : cached_user_info
                    (with_role_cache self (delete (u, o) (_role_cache self)))
                    t u = Some (FullInfo p)) by exact Hinfo.
  by rewrite Hsame.
Qed.

Lemma clear_cache_pair_keeps_user_info_witness :
  exists p,
    cached_user_info Examples.service_demo 1 "alice" = Some (FullInfo p)
    /\ get_user_role Examples.mysql_demo 1 "alice" "orgO"
         (clear_cache (Some "alice") (Some "orgO") Examples.service_demo, [])
       = (p_roles p !! "orgO",
          (clear_cache (Some "alice") (Some "orgO") Examples.service_demo,
           [])).
Proof.
  destruct (cached_user_info Examples.service_demo 1 "alice")
    as [[p|b]|] eqn:Hp; [|vm_compute in Hp; discriminate..].
  exists p. split; [done|].
  by apply (clear_cache_pair_keeps_user_info Examples.mysql_demo
              Examples.service_demo [] "alice" "orgO" 1 p).
Defined.

(** X9.  With the store unreachable and nothing cached, [get_user_role]
    answers no role and caches nothing, and [is_admin] and
    [verify_access] deny. *)
Theorem get_user_role_fails_closed (db : MySQL) (self : UserRoleService)
    (log : list Sql) (u o : string) (t : Q) (required_role : string) :
  connected db = false ->
  cached_role self t (u, o) = None ->
  cached_user_info self t u = None ->
  get_user_role db t u o (self, log)
  = (None, (self, (log ++ [SelectUser u; SelectRole u o])%list))
  /\ (is_admin db t u o (self, log)).1 = false
  /\ (verify_access db t u o required_role (self, log)).1 = false.
Proof.
  intros Hdb Hrole Huser.
  assert (Hcall : get_user_role db t u o (self, log)
                  = (None, (self, (log ++ [SelectUser u; SelectRole u o])%list))).
  { unfold get_user_role, get_user_info_with_roles, execute_query.
    cbn [fst snd]. rewrite Hrole, Huser, Hdb. cbn [roles_of fst snd].
    by rewrite <- app_assoc. }
  unfold is_admin, verify_access. by rewrite Hcall.
Qed.

Lemma get_user_role_fails_closed_witness :
  get_user_role Examples.mysql_down 0 "alice" "orgO" (init, [])
  = (None, (init, ([] ++ [SelectUser "alice"; SelectRole "alice" "orgO"])%list))
  /\ (is_admin Examples.mysql_down 0 "alice" "orgO" (init, [])).1 = false
  /\ (verify_access Examples.mysql_down 0 "alice" "orgO" "USER"
        (init, [])).1 = false.
Proof.
  by apply (get_user_role_fails_closed Examples.mysql_down init []
              "alice" "orgO" 0 "USER").
Defined.

(** X10.  Role ids: 10 is the only id named ADMIN, 90 the only one named
    USER, and the name of any other id passes no access test. *)
Theorem role_name_known_roles (role_id : Z) :
  (role_name role_id = "ADMIN" <-> role_id = 10%Z)
  /\ (role_name role_id = "USER" <-> role_id = 90%Z)
  /\ (role_id <> 10%Z -> role_id <> 90%Z ->
      forall require_role,
        ApiKeyAuth.has_access (Some (role_name role_id)) require_role = false).
Proof.
  unfold role_name.
  destruct (role_id =? 10)%Z eqn:H10; [apply Z.eqb_eq in H10|apply Z.eqb_neq in H10].
  { repeat split; try done; intros; subst; done. }
  destruct (role_id =? 90)%Z eqn:H90; [apply Z.eqb_eq in H90|apply Z.eqb_neq in H90].
  { repeat split; try done; intros; subst; done. }
  repeat split; try done.
  intros _ _ require_role. unfold ApiKeyAuth.has_access. cbn.
  by destruct (bool_decide (require_role = Some "ADMIN")).
Qed.

(** X11.  [get_user_info_with_roles] does not cache a miss: for an unknown
    user it sends one statement and leaves the service as it was. *)
Theorem unknown_user_is_not_cached (db : MySQL) (self : UserRoleService)
    (log : list Sql) (u : string) (t : Q) :
  connected db = true ->
  user_query db u = [] ->
  cached_user_info self t u = None ->
  get_user_info_with_roles db t u (self, log)
  = (None, (self, (log ++ [SelectUser u])%list)).
Proof.
  intros Hdb Hnone Huser.
  unfold get_user_info_with_roles, execute_query. cbn [fst snd].
  by rewrite Huser, Hdb, Hnone.
Qed.

Lemma unknown_user_is_not_cached_witness :
  get_user_info_with_roles Examples.mysql_demo 0 "zed" (init, [])
  = (None, (init, ([] ++ [SelectUser "zed"])%list)).
Proof.
  by apply (unknown_user_is_not_cached Examples.mysql_demo init [] "zed" 0).
Defined.

(** X12.  [verify_user_exists] does cache a miss: for an unknown user it
    sends two statements, and while the entry is fresh a second call
    answers [False] without any. *)
Theorem verify_user_exists_caches_miss (db db' : MySQL)
    (self : UserRoleService) (log : list Sql) (u : string) (t t' : Q) :
  connected db = true ->
  user_query db u = [] ->
  cached_user_info self t u = None ->
  (t' - t < _cache_ttl self)%Q ->
  exists st,
    verify_user_exists db t u (self, log) = (false, st)
    /\ st.2 = (log ++ [SelectUser u; CountUser u])%list
    /\ verify_user_exists db' t' u st = (false, st).
Proof.
  intros Hdb Hnone Huser Hin.
  unfold verify_user_exists at 1. cbn [fst snd]. rewrite Huser.
  assert (Hmiss : get_user_info_with_roles db t u (self, log)
                  = (None, (self, (log ++ [SelectUser u])%list))).
  { unfold get_user_info_with_roles, execute_query. cbn [fst snd].
    by rewrite Huser, Hdb, Hnone. }
  rewrite Hmiss.
  unfold execute_query. cbn [fst snd]. rewrite Hdb, Hnone.
  change (0 <? Z.of_nat (length (@nil UserRow)))%Z with false.
  eexists. split; [reflexivity|]. split; [by rewrite <- app_assoc|].
  unfold verify_user_exists, cached_user_info.
  cbn [fst snd with_user_cache _user_cache].
  rewrite lookup_insert_eq.
  assert (Hvalid : _is_cache_valid
                     (with_user_cache self
                        (<[u:=(ExistsOnly false, t)]> (_user_cache self)))
                     t' t = true).
  { unfold _is_cache_valid. cbn. by apply Qltb_true. }
  by rewrite Hvalid.
Qed.

Lemma verify_user_exists_caches_miss_witness :
  exists st,
    verify_user_exists Examples.mysql_demo 0 "zed" (init, []) = (false, st)
    /\ st.2 = ([] ++ [SelectUser "zed"; CountUser "zed"])%list
    /\ verify_user_exists Examples.mysql_demo 1 "zed" st = (false, st).
Proof.
  by apply (verify_user_exists_caches_miss Examples.mysql_demo
              Examples.mysql_demo init [] "zed" 0 1).
Defined.

End IdentityFacts.

(** ** The collection table: permissions, creation and deletion *)
Module CollectionFacts.
Import Identity Collections.

(** X13.  [check_collection_permission]: whoever is granted any permission
    is granted a read. *)
Theorem write_implies_read (db : Postgres) (mysql : MySQL) (now : Q)
    (uid name : string) (org : option string) (isp : bool) (perm : string) :
  check_collection_permission db mysql now uid name org isp perm = true ->
  check_collection_permission db mysql now uid name org isp "read" = true.
Proof.
  unfold check_collection_permission.
  destruct (session_scope db) as [session|e]; cbn [bind try_except]; [|done].
  destruct (first_by_name session name) as [c|]; [|done].
  destruct (is_personal c); [done|].
  destruct (truthy_opt (organization_id c)
            && bool_decide (organization_id c = org)); done.
Qed.

Lemma write_implies_read_witness :
  check_collection_permission Examples.postgres_demo Examples.mysql_demo 0
    "alice" "docs" (Some "orgO") false "read" = true.
Proof.
  by apply (write_implies_read Examples.postgres_demo Examples.mysql_demo 0
              "alice" "docs" (Some "orgO") false "delete").
Defined.

(** X14.  When the row the check reads (the first stored under the
    name) is neither personal nor owned by an organization, the check
    answers false to every caller, whatever organization and
    permission are given. *)
Theorem orgless_collection_is_closed (db : Postgres) (mysql : MySQL) (now : Q)
    (uid name : string) (org : option string) (isp : bool) (perm : string)
    (c : Collection) :
  first_by_name (vectorstore_collection db) name = Some c ->
  is_personal c = false ->
  truthy_opt (organization_id c) = false ->
  check_collection_permission db mysql now uid name org isp perm = false.
Proof.
  intros Hc Hp Ho. unfold check_collection_permission, session_scope.
  destruct (available db); [|done]. cbn. by rewrite Hc, Hp, Ho.
Qed.

Lemma orgless_collection_is_closed_witness :
  check_collection_permission Examples.postgres_loose Examples.mysql_demo 0
    "alice" "loose" None false "read" = false.
Proof.
  by apply (orgless_collection_is_closed Examples.postgres_loose
              Examples.mysql_demo 0 "alice" "loose" None false "read"
              Examples.loose).
Defined.

Lemma first_by_name_unique (rows : list Collection) (c : Collection) :
  NoDup (collection_name <$> rows) -> c ∈ rows ->
  first_by_name rows (collection_name c) = Some c.
Proof.
  unfold first_by_name. induction rows as [|r rows IH]; intros Hnd Hin.
  - by apply elem_of_nil in Hin.
  - cbn in Hnd. apply NoDup_cons in Hnd as [Hr Hnd].
    rewrite filter_cons.
    apply elem_of_cons in Hin as [->|Hin].
    + by rewrite decide_True.
    + rewrite decide_False; [by apply IH|].
      intros Heq. apply Hr. rewrite Heq. by apply list_elem_of_fmap_2.
Qed.

(** X15.  With distinct collection names, every collection
    [get_user_collections] lists for a caller is one
    [check_collection_permission] lets that caller read. *)
Theorem listed_collections_are_readable (db : Postgres) (mysql : MySQL)
    (now : Q) (uid : string) (org : option string)
    (include_personal include_organizational isp : bool)
    (ci : CollectionInfo) :
  NoDup (collection_name <$> vectorstore_collection db) ->
  ci ∈ get_user_collections db uid org include_personal
         include_organizational ->
  check_collection_permission db mysql now uid (ci_collection_name ci)
    org isp "read" = true.
Proof.
  intros Hnd. unfold get_user_collections, check_collection_permission,
    session_scope.
  destruct (available db); cbn [bind try_except];
    [|by intros ?%elem_of_nil].
  intros Hin.
  assert (Hrow : exists c, c ∈ vectorstore_collection db
                   /\ collection_name c = ci_collection_name ci
                   /\ (is_personal c = true /\ user_id c = uid
                       \/ is_personal c = false /\ organization_id c = org
                          /\ truthy_opt org = true)).
  { destruct include_personal, (include_organizational && truthy_opt org)
      eqn:Horg; cbn [app] in Hin.
    - apply andb_true_iff in Horg as [_ Horg].
      apply elem_of_app in Hin as
          [(c & -> & [[? ?] ?]%list_elem_of_filter)%list_elem_of_fmap
          |(c & -> & [[? ?] ?]%list_elem_of_filter)%list_elem_of_fmap];
        exists c; cbn; auto 10.
    - apply list_elem_of_fmap in Hin as (c & -> & [[? ?] ?]%list_elem_of_filter).
      exists c; cbn; auto 10.
    - apply andb_true_iff in Horg as [_ Horg].
      apply list_elem_of_fmap in Hin as (c & -> & [[? ?] ?]%list_elem_of_filter).
      exists c; cbn; auto 10.
    - by apply elem_of_nil in Hin. }
  destruct Hrow as (c & Hc & <- & Hkind).
  rewrite (first_by_name_unique _ c Hnd Hc).
  destruct Hkind as [[-> ->]|(-> & -> & ->)].
  - by rewrite bool_decide_eq_true_2.
  - cbn. by rewrite bool_decide_eq_true_2.
Qed.

Lemma listed_collections_are_readable_witness :
  check_collection_permission Examples.postgres_demo Examples.mysql_demo 0
    "bob" "docs" (Some "orgO") false "read" = true.
Proof.
  apply (listed_collections_are_readable Examples.postgres_demo
           Examples.mysql_demo 0 "bob" (Some "orgO") true true false
           {| ci_id := "2"; ci_collection_name := "docs";
              ci_is_personal := false; ci_organization_id := Some "orgO";
              ci_user_id := "carol" |}).
  - cbn. apply NoDup_cons. split; [by intros ?%list_elem_of_singleton|].
    apply NoDup_singleton.
  - vm_compute. apply list_elem_of_here.
Defined.

Lemma filter_all {A} (P : A -> Prop) `{!forall x, Decision (P x)}
    (l : list A) :
  (forall x, x ∈ l -> P x) -> filter P l = l.
Proof.
  induction l as [|x l IH]; intros HP; [done|].
  rewrite filter_cons, decide_True by (apply HP, list_elem_of_here).
  rewrite IH; [done|]. intros y Hy. by apply HP, list_elem_of_further.
Qed.

Lemma filter_none {A} (P : A -> Prop) `{!forall x, Decision (P x)}
    (l : list A) :
  (forall x, x ∈ l -> ~ P x) -> filter P l = [].
Proof.
  induction l as [|x l IH]; intros HP; [done|].
  rewrite filter_cons, decide_False by (apply HP, list_elem_of_here).
  apply IH. intros y Hy. by apply HP, list_elem_of_further.
Qed.

Lemma filter_fresh_name {P : Collection -> Prop}
    `{!forall c, Decision (P c)} (rows : list Collection) (name : string) :
  first_by_name rows name = None ->
  (forall c, P c -> collection_name c = name) ->
  filter P rows = [].
Proof.
  unfold first_by_name. intros Hnone HP.
  induction rows as [|r rows IH]; [done|].
  rewrite filter_cons in Hnone.
  destruct (decide (collection_name r = name)) as [Hr|Hr]; [done|].
  rewrite filter_cons, decide_False; [by apply IH|].
  intros HPr. by apply Hr, HP.
Qed.

Lemma first_by_name_app_fresh (rows : list Collection) (c : Collection) :
  first_by_name rows (collection_name c) = None ->
  first_by_name (rows ++ [c]) (collection_name c) = Some c.
Proof.
  unfold first_by_name. intros Hnone. rewrite filter_app.
  rewrite (filter_fresh_name rows (collection_name c)) by done.
  rewrite app_nil_l, filter_cons, decide_True by done. done.
Qed.

(** X16.  Creating a personal collection under an unused name gives the
    creator, and nobody else, every permission on it. *)
Theorem create_personal_then_check (db : Postgres) (mysql : MySQL) (now : Q)
    (fresh_id name owner : string) (org : option string) :
  available db = true ->
  first_by_name (vectorstore_collection db) name = None ->
  exists db',
    create_collection db fresh_id name owner org true = (Ok fresh_id, db')
    /\ forall caller org' isp perm,
        check_collection_permission db' mysql now caller name org' isp perm
        = bool_decide (owner = caller).
Proof.
  intros Hdb Hfresh. unfold create_collection, session_scope. rewrite Hdb.
  rewrite (filter_fresh_name (vectorstore_collection db) name) by tauto.
  cbn [head]. eexists. split; [reflexivity|].
  intros caller org' isp perm.
  unfold check_collection_permission, session_scope.
  cbn [available vectorstore_collection bind try_except].
  set (c := {| id := fresh_id; user_id := owner; collection_name := name;
               organization_id := None; is_personal := true |}).
  pose proof (first_by_name_app_fresh (vectorstore_collection db) c Hfresh)
    as Hfound.
  change (collection_name c) with name in Hfound. by rewrite Hfound.
Qed.

Lemma create_personal_then_check_witness :
  exists db',
    create_collection Examples.postgres_demo "9" "beta" "bob" None true
    = (Ok "9", db')
    /\ check_collection_permission db' Examples.mysql_demo 0
         "alice" "beta" None false "read" = false.
Proof.
  destruct (create_personal_then_check Examples.postgres_demo
              Examples.mysql_demo 0 "9" "beta" "bob" None)
    as (db' & Hcreate & Hcheck); [done | done |].
  exists db'. split; [done|]. by rewrite Hcheck.
Defined.

(** X17.  [create_collection] never adds a second row of the same name and
    kind: once it has answered, every later call for that name and
    kind, by whatever user, gets the same id and changes nothing. *)
Theorem create_collection_idempotent (db db' : Postgres)
    (fresh_id name owner : string) (org : option string) (isp : bool)
    (i : string) :
  create_collection db fresh_id name owner org isp = (Ok i, db') ->
  forall fresh_id' owner' org',
    create_collection db' fresh_id' name owner' org' isp = (Ok i, db').
Proof.
  unfold create_collection, session_scope.
  destruct (available db) eqn:Hdb; [|done].
  destruct (head (filter _ (vectorstore_collection db)))
    as [existing|] eqn:Hhead.
  - intros [= <- <-] fresh_id' owner' org'. rewrite Hdb. cbv beta iota.
    by rewrite Hhead.
  - intros [= <- <-] fresh_id' owner' org'.
    cbn [available vectorstore_collection]. cbv beta iota.
    rewrite filter_app. apply head_None in Hhead. rewrite Hhead.
    rewrite app_nil_l, filter_cons, decide_True by done. done.
Qed.

Lemma create_collection_idempotent_witness :
  create_collection
    (create_collection Examples.postgres_demo "9" "beta" "bob" None true).2
    "10" "beta" "eve" (Some "orgO") true
  = (Ok "9",
     (create_collection Examples.postgres_demo "9" "beta" "bob" None true).2).
Proof.
  by apply (create_collection_idempotent Examples.postgres_demo _
              "9" "beta" "bob" None true).
Defined.

Lemma filter_filter_neg {A} (p : A -> bool) (l : list A) :
  filter (fun x => p x = true) (filter (fun x => p x = false) l) = [].
Proof.
  induction l as [|x l IH]; [done|].
  rewrite (filter_cons (fun x => p x = false)).
  destruct (decide (p x = false)) as [Hx|Hx]; [|done].
  rewrite filter_cons, decide_False; [done | congruence].
Qed.

Lemma filter_neg_idemp {A} (p : A -> bool) (l : list A) :
  filter (fun x => p x = false) (filter (fun x => p x = false) l)
  = filter (fun x => p x = false) l.
Proof.
  induction l as [|x l IH]; [done|].
  rewrite (filter_cons (fun x => p x = false)).
  destruct (decide (p x = false)) as [Hx|Hx]; [|done].
  by rewrite filter_cons, decide_True, IH.
Qed.

(** X18.  [delete_collection]: rows of other names stay and no row is added;
    a second call finds nothing and changes nothing; called for a non-
    personal collection without an organization it removes every row
    of the name, personal rows included. *)
Theorem delete_collection_effect (db : Postgres) (name : string)
    (org : option string) (isp : bool) :
  let db' := (delete_collection db name org isp).2 in
  (forall c, c ∈ vectorstore_collection db -> collection_name c <> name ->
             c ∈ vectorstore_collection db')
  /\ (forall c, c ∈ vectorstore_collection db' ->
                c ∈ vectorstore_collection db)
  /\ delete_collection db' name org isp = (false, db')
  /\ (available db = true -> isp = false -> truthy_opt org = false ->
      forall c, c ∈ vectorstore_collection db' -> collection_name c <> name).
Proof.
  unfold delete_collection, session_scope.
  destruct (available db) eqn:Hdb; cbn [snd].
  - cbn [available vectorstore_collection]. repeat split.
    + intros c Hc Hne. apply list_elem_of_filter. split; [|done].
      unfold delete_selects. by rewrite bool_decide_eq_false_2.
    + by intros c [_ ?]%list_elem_of_filter.
    + by rewrite filter_filter_neg, filter_neg_idemp.
    + intros _ -> Horg c [Hsel _]%list_elem_of_filter.
      unfold delete_selects in Hsel. rewrite Horg, andb_true_r in Hsel.
      by apply bool_decide_eq_false in Hsel.
  - rewrite Hdb. repeat split; done.
Qed.

(** X19.  Creating a collection under an unused name and deleting it with
    the same flags restores the table. *)
Theorem create_then_delete (db : Postgres) (fresh_id name owner : string)
    (org : option string) (isp : bool) :
  available db = true ->
  first_by_name (vectorstore_collection db) name = None ->
  exists db',
    create_collection db fresh_id name owner org isp = (Ok fresh_id, db')
    /\ delete_collection db' name org isp = (true, db).
Proof.
  intros Hdb Hfresh. unfold create_collection, session_scope. rewrite Hdb.
  rewrite (filter_fresh_name (vectorstore_collection db) name) by tauto.
  cbn [head]. eexists. split; [reflexivity|].
  unfold delete_collection, session_scope.
  cbn [available vectorstore_collection].
  set (c := {| id := fresh_id; user_id := owner; collection_name := name;
               organization_id := if isp then None else org;
               is_personal := isp |}).
  assert (Hc : delete_selects name org isp c = true).
  { unfold delete_selects. cbn. rewrite bool_decide_eq_true_2 by done.
    destruct isp; [done|]. cbn. destruct (truthy_opt org); [|done].
    by rewrite !bool_decide_eq_true_2. }
  assert (Hold : forall r, r ∈ vectorstore_collection db ->
                           delete_selects name org isp r = false).
  { intros r Hr. unfold delete_selects.
    rewrite bool_decide_eq_false_2; [done|]. intros Hname.
    unfold first_by_name in Hfresh. apply head_None in Hfresh.
    exact (filter_nil_not_elem_of _ _ r Hfresh Hname Hr). }
  rewrite !filter_app.
  rewrite (filter_none (fun r => delete_selects name org isp r = true)
             (vectorstore_collection db))
    by (intros r Hr; rewrite (Hold r Hr); done).
  rewrite (filter_all (fun r => delete_selects name org isp r = false)
             (vectorstore_collection db)) by exact Hold.
  rewrite !filter_cons, decide_True, decide_False by (by rewrite Hc).
  rewrite app_nil_r. cbn. destruct db; cbn in *; by subst.
Qed.

Lemma create_then_delete_witness :
  exists db',
    create_collection Examples.postgres_demo "9" "beta" "bob" None true
    = (Ok "9", db')
    /\ delete_collection db' "beta" None true = (true, Examples.postgres_demo).
Proof.
  by apply (create_then_delete Examples.postgres_demo "9" "beta" "bob"
              None true).
Defined.
End CollectionFacts.

(** ** The index: upload, reassembly and one collection's retrieval *)
Module IndexFacts.
Import Qdrant PyFacts.





Lemma dict_get_Some_elem {K V} `{EqDecision K} (k : K) (v : V)
    (d : list (K * V)) :
  dict_get k d = Some v -> (k, v) ∈ d.
Proof.
  induction d as [|[k0 v0] d IH]; cbn; [done|].
  destruct (decide (k = k0)) as [->|Hne].
  - intros [= ->]. apply list_elem_of_here.
  - intros Hd. by apply list_elem_of_further, IH.
Qed.

Lemma dict_set_Forall {K V} `{EqDecision K} (P : K * V -> Prop) (k : K)
    (v : V) (d : list (K * V)) :
  Forall P d -> P (k, v) -> Forall P (dict_set k v d).
Proof.
  intros Hd Hkv. induction Hd as [|[k0 v0] d H0 Hd IH]; cbn.
  - by repeat constructor.
  - destruct (decide (k = k0)); by constructor.
Qed.

Lemma section_of_mono (docs docs' : list Document) entry :
  (forall d, d ∈ docs -> d ∈ docs') ->
  section_of docs entry -> section_of docs' entry.
Proof.
  intros Hsub (? & ? & ? & ? & ? & doc & Hdoc & ?).
  repeat split; try done. exists doc. split; [by apply Hsub | done].
Qed.

Lemma query_headers_step_sections (self : QdrantClient) (c : string)
    (n : Z) (docs : list Document) (processed processed' : list (string * Processed))
    (doc : Document) :
  doc ∈ docs ->
  Forall (section_of docs) processed -> NoDup processed.*1 ->
  query_headers_step self c n processed doc = Ok processed' ->
  Forall (section_of docs) processed' /\ NoDup processed'.*1.
Proof.
  intros Hdoc Hall Hnd. unfold query_headers_step.
  destruct (headers (metadata doc)) as [h|] eqn:Hh; cbn [getitem bind]; [|done].
  destruct (dict_get h processed) as [entry|] eqn:Hget.
  - intros [= <-]. split.
    + apply dict_set_Forall; [done|].
      apply dict_get_Some_elem in Hget.
      rewrite Forall_forall in Hall. exact (Hall _ Hget).
    + rewrite dict_set_keys, decide_True; [done|].
      apply dec_stable. intros Hn. apply dict_get_None in Hn. congruence.
  - destruct (document_name (metadata doc)) as [dn|] eqn:Hdn;
      cbn [getitem bind]; [|done].
    destruct (query_points_section self c dn h n) as [points|];
      cbn [bind]; [|done].
    destruct (document_id (metadata doc)) as [did|] eqn:Hdid;
      cbn [getitem bind]; [|done].
    intros [= <-]. split.
    + apply dict_set_Forall; [done|].
      repeat split. exists doc. by rewrite Hdn, Hdid.
    + apply dict_get_None in Hget.
      rewrite dict_set_keys, decide_False by done.
      apply NoDup_app. split; [done|]. split; [|apply NoDup_singleton].
      by intros k Hk ->%list_elem_of_singleton.
Qed.

Lemma query_headers_loop_sections (self : QdrantClient) (c : string)
    (n : Z) (docs : list Document) (rest : list Document)
    (processed processed' : list (string * Processed)) :
  (forall d, d ∈ rest -> d ∈ docs) ->
  Forall (section_of docs) processed -> NoDup processed.*1 ->
  for_each (query_headers_step self c n) processed rest = Ok processed' ->
  Forall (section_of docs) processed' /\ NoDup processed'.*1.
Proof.
  revert processed. induction rest as [|doc rest IH];
    intros processed Hsub Hall Hnd; cbn.
  - by intros [= <-].
  - destruct (query_headers_step self c n processed doc) as [p1|] eqn:Hstep;
      cbn [bind]; [|done].
    intros Hrest.
    destruct (query_headers_step_sections self c n docs processed p1 doc)
      as [Hall1 Hnd1]; try done.
    { apply Hsub, list_elem_of_here. }
    apply (IH p1); try done.
    intros d Hd. by apply Hsub, list_elem_of_further.
Qed.

Lemma query_headers_Ok_sections (self : QdrantClient)
    (documents : list Document) (collection_name : string)
    (sections : list Document) :
  query_headers self documents collection_name = Ok sections ->
  NoDup (map (fun d => headers (metadata d)) sections)
  /\ length sections <= length documents
  /\ Forall (fun d =>
               index (metadata d) = None
               /\ organization_id (metadata d) = None
               /\ source_collection (metadata d) = None
               /\ is_personal (metadata d) = None
               /\ exists doc, doc ∈ documents
                     /\ headers (metadata doc) = headers (metadata d)
                     /\ document_name (metadata doc) = document_name (metadata d)
                     /\ document_id (metadata doc) = document_id (metadata d))
            sections.
Proof.
  unfold query_headers, process_documents.
  destruct (points_count self collection_name) as [n|]; cbn [bind]; [|done].
  destruct (for_each _ [] documents) as [processed|] eqn:Hloop;
    cbn [bind]; [|done].
  intros [= <-].
  destruct (query_headers_loop_sections self collection_name n documents
              documents [] processed) as [Hall Hnd]; try done.
  { constructor. }
  pose proof (sorted_reverse_Permutation
                (fun a b : string * Processed => (score a.2 <? score b.2)%Z)
                processed) as Hperm.
  set (sorted := sorted_reverse _ processed) in *.
  assert (Hall' : Forall (section_of documents) sorted) by by rewrite Hperm.
  assert (Hkeys : map (fun d => headers (metadata d))
                      (map (fun item : string * Processed => document item.2)
                           sorted)
                  = Some <$> sorted.*1).
  { rewrite map_map. clear -Hall'.
    induction Hall' as [|entry l (Hh & _) _ IH]; [done|].
    cbn. by rewrite Hh, IH. }
  assert (Hnd' : NoDup (Some <$> sorted.*1)).
  { apply NoDup_fmap; [intros ? ? [=]; done|]. by rewrite Hperm. }
  repeat split.
  - by rewrite Hkeys.
  - rewrite length_map, <- (length_fmap fst), <- (length_fmap Some).
    rewrite <- (length_fmap (fun d => headers (metadata d)) documents).
    apply submseteq_length, NoDup_submseteq; [done|].
    intros k (h & -> & ([h' e] & -> & Hentry)%list_elem_of_fmap)%list_elem_of_fmap.
    rewrite Forall_forall in Hall'.
    destruct (Hall' _ Hentry) as (_ & _ & _ & _ & _ & doc & Hdoc & Hh & _).
    cbn [fst] in Hh |- *. rewrite <- Hh.
    by apply (list_elem_of_fmap_2 (fun d => headers (metadata d))).
  - rewrite Forall_fmap. eapply Forall_impl; [exact Hall'|].
    intros entry (Hh & ? & ? & ? & ? & doc & Hdoc & Hdh & ? & ?). cbn.
    repeat split; try done. exists doc. repeat split; try done.
    by rewrite Hh.
Qed.

(** X21.  Whatever the chunks are, the sections [query_headers] returns have
    pairwise distinct headers, are no more than the chunks, and carry
    only the three keys, taken from an input chunk with those headers. *)
Theorem query_headers_sections (self : QdrantClient)
    (documents : list Document) (collection_name : string)
    (sections : list Document) :
  query_headers self documents collection_name = Ok sections ->
  NoDup (map (fun d => headers (metadata d)) sections)
  /\ length sections <= length documents
  /\ Forall (fun d =>
               index (metadata d) = None
               /\ organization_id (metadata d) = None
               /\ source_collection (metadata d) = None
               /\ is_personal (metadata d) = None
               /\ exists doc, doc ∈ documents
                     /\ headers (metadata doc) = headers (metadata d)
                     /\ document_name (metadata doc) = document_name (metadata d)
                     /\ document_id (metadata doc) = document_id (metadata d))
            sections.
Proof. apply query_headers_Ok_sections. Qed.

Lemma query_headers_sections_witness :
  exists sections,
    query_headers Examples.qdrant_demo Examples.same_headers_chunks "alpha"
    = Ok sections
    /\ NoDup (map (fun d => headers (metadata d)) sections)
    /\ length sections <= length Examples.same_headers_chunks.
Proof.
  destruct (query_headers Examples.qdrant_demo Examples.same_headers_chunks
              "alpha") as [sections|e] eqn:Hsections;
    [|vm_compute in Hsections; discriminate].
  exists sections. split; [done|].
  by destruct (query_headers_sections _ _ _ _ Hsections) as (? & ? & _).
Defined.


Lemma for_each_app {S A} (body : S -> A -> result S) (l1 l2 : list A) (s : S) :
  for_each body s (l1 ++ l2)
  = let* s1 := for_each body s l1 in for_each body s1 l2.
Proof.
  revert s. induction l1 as [|x l1 IH]; intros s; cbn; [done|].
  destruct (body s x); cbn; [apply IH | done].
Qed.

(** X22.  A chunk without the ['headers'] key fails the whole reassembly
    with [KeyError], whatever comes after it. *)
Theorem query_headers_missing_headers (self : QdrantClient)
    (before after : list Document) (bad : Document)
    (collection_name : string) (n : Z) :
  points_count self collection_name = Ok n ->
  Forall (well_formed self collection_name n) before ->
  headers (metadata bad) = None ->
  query_headers self (before ++ bad :: after) collection_name
  = Raise (KeyError "headers").
Proof.
  intros Hn Hwf Hbad. unfold query_headers, process_documents.
  rewrite Hn. cbn [bind]. rewrite for_each_app.
  destruct (Reassembly.query_headers_loop self collection_name n before
              [] [] Hwf) as (processed & -> & _); [done|done|].
  cbn [bind for_each]. unfold query_headers_step at 1. by rewrite Hbad.
Qed.

Lemma query_headers_missing_headers_witness :
  query_headers Examples.qdrant_demo
    ([Examples.chunk "refunds within 30 days. " "policy.pdf" "Returns" 0]
     ++ Examples.chunk_without_headers :: [])
    "alpha"
  = Raise (KeyError "headers").
Proof.
  apply (query_headers_missing_headers Examples.qdrant_demo _ []
           Examples.chunk_without_headers "alpha" 2).
  - reflexivity.
  - constructor; [|constructor].
    by exists "Returns", "policy.pdf", "id-policy.pdf",
         ["refunds within 30 days. "; "items must be unused."].
  - reflexivity.
Defined.

Lemma slice_to_sublist {A} (k : Z) (l : list A) :
  slice_to k l `sublist_of` l.
Proof. unfold slice_to. destruct (0 <=? k)%Z; apply sublist_take. Qed.

Lemma slice_to_length {A} (k : Z) (l : list A) :
  (0 <= k)%Z -> (Z.of_nat (length (slice_to k l)) <= k)%Z.
Proof.
  intros Hk. unfold slice_to. rewrite (proj2 (Z.leb_le _ _)) by done.
  rewrite length_take. lia.
Qed.

(** X23.  What [qdrant_retrieval] returns for one collection: at most
    [top_k] sections for a non-negative [top_k], with pairwise
    distinct headers and no index, organization or collection tag in
    their metadata. *)
Theorem qdrant_retrieval_sections (client : QdrantClient)
    (reranker : Retrieval.FlagReranker) (query : Retrieval.QueryArg)
    (top_k : Z) (collection_name : string) :
  let docs :=
    Retrieval.qdrant_retrieval client reranker query top_k collection_name in
  ((0 <= top_k)%Z -> (Z.of_nat (length docs) <= top_k)%Z)
  /\ NoDup (map (fun d => headers (metadata d)) docs)
  /\ Forall (fun d => index (metadata d) = None
                      /\ organization_id (metadata d) = None
                      /\ source_collection (metadata d) = None
                      /\ is_personal (metadata d) = None) docs.
Proof.
  unfold Retrieval.qdrant_retrieval, Retrieval.qdrant_retrieval_body.
  assert (Hempty : forall k : Z,
             ((0 <= k)%Z -> (Z.of_nat (length (@nil Document)) <= k)%Z)
             /\ NoDup (map (fun d => headers (metadata d)) (@nil Document))
             /\ Forall (fun d => index (metadata d) = None
                                 /\ organization_id (metadata d) = None
                                 /\ source_collection (metadata d) = None
                                 /\ is_personal (metadata d) = None) []).
  { intros k. repeat split; [cbn; lia | constructor | constructor]. }
  destruct (collection_exists client collection_name) as [[|]|];
    cbn [bind negb try_except]; [|apply Hempty|apply Hempty].
  destruct (hybrid_search _ _ _) as [docs|]; cbn [bind try_except];
    [|apply Hempty].
  destruct (Retrieval._query_retrieval_reranking _ _ _ _) as [ranked|];
    cbn [bind try_except]; [|apply Hempty].
  destruct (query_headers client ranked collection_name) as [sections|]
    eqn:Hsections; cbn [bind try_except]; [|apply Hempty].
  apply query_headers_Ok_sections in Hsections as (Hnd & _ & Hall).
  pose proof (slice_to_sublist top_k sections) as Hsub.
  repeat split.
  - apply slice_to_length.
  - eapply sublist_NoDup; [exact Hnd|].
    by apply (fmap_sublist (fun d => headers (metadata d))).
  - assert (Htake : forall n, Forall (fun d => index (metadata d) = None
                      /\ organization_id (metadata d) = None
                      /\ source_collection (metadata d) = None
                      /\ is_personal (metadata d) = None) (take n sections)).
    { intros n. apply Forall_take. eapply Forall_impl; [exact Hall|].
      cbn. intros d (? & ? & ? & ? & _). done. }
    unfold slice_to. destruct (0 <=? top_k)%Z; apply Htake.
Qed.

End IndexFacts.

(** ** The fan-out over the caller's collections *)
Module FanOutFacts.
Import Qdrant MultiCollection PyFacts.

(** X25.  Every document [retrieve_from_collections] returns is a document
    of the retrieval of one collection listed for the caller, tagged
    with that collection's name and kind. *)
Theorem retrieve_from_collections_provenance (env : Env)
    (query user_id : string) (organization_id_ : option string) (top_k : Z)
    (include_personal include_organizational : bool) (doc : Document) :
  doc ∈ retrieve_from_collections env query user_id organization_id_ top_k
          include_personal include_organizational ->
  exists ci d,
    ci ∈ Collections.get_user_collections (db env) user_id organization_id_
           include_personal include_organizational
    /\ d ∈ Retrieval.qdrant_retrieval (client env) (reranker env)
             (Retrieval.QueryStr query) top_k
             (Collections.ci_collection_name ci)
    /\ page_content doc = page_content d
    /\ headers (metadata doc) = headers (metadata d)
    /\ document_name (metadata doc) = document_name (metadata d)
    /\ source_collection (metadata doc)
       = Some (Collections.ci_collection_name ci)
    /\ is_personal (metadata doc) = Some (Collections.ci_is_personal ci).
Proof.
  rewrite FanOut.retrieve_from_collections_pool. intros Hin.
  eapply elem_of_sublist in Hin; [|apply IndexFacts.slice_to_sublist].
  apply list_elem_of_In, in_flat_map in Hin as (ci & Hci & Hdoc).
  unfold collection_results in Hdoc.
  apply in_map_iff in Hdoc as (d & <- & Hd).
  exists ci, d. by rewrite <- !list_elem_of_In in *.
Qed.

Lemma retrieve_from_collections_provenance_witness :
  exists doc ci d,
    head (retrieve_from_collections Examples.env_demo "refund" "alice" None 5
            true true) = Some doc
    /\ ci ∈ Collections.get_user_collections (db Examples.env_demo) "alice"
              None true true
    /\ d ∈ Retrieval.qdrant_retrieval (client Examples.env_demo)
             (reranker Examples.env_demo) (Retrieval.QueryStr "refund") 5
             (Collections.ci_collection_name ci)
    /\ source_collection (metadata doc)
       = Some (Collections.ci_collection_name ci).
Proof.
  destruct (head (retrieve_from_collections Examples.env_demo "refund"
                    "alice" None 5 true true)) as [doc|] eqn:Hhead;
    [|vm_compute in Hhead; discriminate].
  destruct (retrieve_from_collections_provenance Examples.env_demo "refund"
              "alice" None 5 true true doc (head_Some_elem_of _ _ Hhead))
    as (ci & d & Hci & Hd & _ & _ & _ & Hsource & _).
  by exists doc, ci, d.
Defined.

(** X26.  For a non-negative [top_k], [retrieve_from_collections] returns at
    most [top_k] documents. *)
Theorem retrieve_from_collections_length (env : Env)
    (query user_id : string) (organization_id_ : option string) (top_k : Z)
    (include_personal include_organizational : bool) :
  (0 <= top_k)%Z ->
  (Z.of_nat (length (retrieve_from_collections env query user_id
                       organization_id_ top_k include_personal
                       include_organizational)) <= top_k)%Z.
Proof.
  intros Hk. rewrite FanOut.retrieve_from_collections_pool.
  by apply IndexFacts.slice_to_length.
Qed.

Lemma retrieve_from_collections_length_witness :
  (Z.of_nat (length (retrieve_from_collections Examples.env_demo "refund"
                       "alice" None 5 true true)) <= 5)%Z.
Proof.
  apply (retrieve_from_collections_length Examples.env_demo "refund" "alice"
           None 5 true true).
  lia.
Defined.

End FanOutFacts.

(** ** Authentication by API key *)
Module AuthFacts.
Import Identity ApiKeyAuth PyFacts.

Lemma get_api_key_by_value_spec (repo : APIKeyRepository) (key : string)
    (k : APIKey) :
  get_api_key_by_value repo key = Some k ->
  reachable repo = true /\ k ∈ api_keys repo /\ k_api_key k = key.
Proof.
  unfold get_api_key_by_value. destruct (reachable repo); [|done].
  intros Hhead. apply head_Some_elem_of in Hhead.
  apply list_elem_of_filter in Hhead as [? ?]. done.
Qed.

Lemma has_access_roles (user_role require_role : option string) :
  has_access user_role require_role = true ->
  (user_role = Some "USER" /\ require_role <> Some "ADMIN")
  \/ user_role = Some "ADMIN".
Proof.
  unfold has_access. destruct user_role as [role|]; [|done].
  destruct (truthy role); [|done].
  destruct (bool_decide (require_role = Some "ADMIN")) eqn:Hreq.
  - intros ->%bool_decide_eq_true. by right.
  - apply bool_decide_eq_false in Hreq.
    intros [->%bool_decide_eq_true| ->%bool_decide_eq_true]%orb_true_iff;
      [by left | by right].
Qed.

Lemma author_with_api_key_inv (repo repo' : APIKeyRepository)
    (usage_session : bool) (db : MySQL) (now : Q)
    (organization_id api_key require_role : option string)
    (self self' : UserRoleService) (rs : RequestState) :
  author_with_api_key repo usage_session db now organization_id api_key
    require_role self
  = (Return rs, repo', self') ->
  exists key k,
    api_key = Some key
    /\ k ∈ api_keys repo /\ k_api_key k = key
    /\ k_is_active k = true
    /\ (forall expiry_date, k_expiry_date k = Some expiry_date ->
                            (now <= expiry_date)%Q)
    /\ rs_user_id rs = k_user_id k
    /\ rs_organization_id rs
       = (if truthy_opt organization_id then organization_id
          else k_organization_id k)
    /\ (truthy_opt (rs_organization_id rs) = false -> rs_role rs = None)
    /\ (truthy_opt (rs_organization_id rs) = true ->
        rs_role rs = roles_dict (rs_user_info rs) !! the (rs_organization_id rs)
        /\ ((rs_role rs = Some "USER" /\ require_role <> Some "ADMIN")
            \/ rs_role rs = Some "ADMIN")).
Proof.
  unfold author_with_api_key.
  destruct api_key as [key|]; [|done].
  destruct (get_api_key_by_value repo key) as [k|] eqn:Hk; [|done].
  apply get_api_key_by_value_spec in Hk as (Hreach & Hin & Hkey).
  destruct (k_is_active k) eqn:Hactive; cbn [negb]; [|done].
  destruct (match k_expiry_date k with Some e => Qltb e now | None => false end)
    eqn:Hexp; [done|].
  destruct (run _ self) as [[user_info|] self1]; [|done].
  set (effective := if truthy_opt organization_id then organization_id
                    else k_organization_id k).
  destruct (truthy_opt effective) eqn:Heff.
  - destruct (bool_decide (the effective ∈ _)).
    + destruct (has_access _ require_role) eqn:Hacc; cbn [negb]; [|done].
      destruct (update_api_key_usage repo usage_session now key) as [? repo1].
      intros [= <- <- <-]. exists key, k. cbn.
      repeat split; try done.
      * intros e He. rewrite He in Hexp. by apply Qltb_false.
      * congruence.
      * by apply has_access_roles.
    + destruct (verify_organization_exists db now (the effective) self1)
        as [[|] self2]; cbn [negb]; [|done].
      destruct (has_access _ require_role) eqn:Hacc; cbn [negb]; [|done].
      destruct (update_api_key_usage repo usage_session now key) as [? repo1].
      intros [= <- <- <-]. exists key, k. cbn.
      repeat split; try done.
      * intros e He. rewrite He in Hexp. by apply Qltb_false.
      * congruence.
      * by apply has_access_roles.
  - destruct (update_api_key_usage repo usage_session now key) as [? repo1].
    intros [= <- <- <-]. exists key, k. cbn.
    repeat split; try done.
    + intros e He. rewrite He in Hexp. by apply Qltb_false.
    + congruence.
    + congruence.
Qed.

(** X27.  A request that passed [author_with_api_key] presented a stored key
    that is active and not expired; its user is the key's user, its
    organization is the one asked for or else the key's, and when an
    organization is set the role attached is USER or ADMIN (ADMIN when
    ADMIN is required). *)
Theorem author_with_api_key_sound (repo repo' : APIKeyRepository)
    (usage_session : bool) (db : MySQL) (now : Q)
    (organization_id api_key require_role : option string)
    (self self' : UserRoleService) (rs : RequestState) :
  author_with_api_key repo usage_session db now organization_id api_key
    require_role self
  = (Return rs, repo', self') ->
  exists key k,
    api_key = Some key
    /\ k ∈ api_keys repo /\ k_api_key k = key
    /\ k_is_active k = true
    /\ (forall expiry_date, k_expiry_date k = Some expiry_date ->
                            (now <= expiry_date)%Q)
    /\ rs_user_id rs = k_user_id k
    /\ rs_organization_id rs
       = (if truthy_opt organization_id then organization_id
          else k_organization_id k)
    /\ (truthy_opt (rs_organization_id rs) = false -> rs_role rs = None)
    /\ (truthy_opt (rs_organization_id rs) = true ->
        rs_role rs = roles_dict (rs_user_info rs) !! the (rs_organization_id rs)
        /\ ((rs_role rs = Some "USER" /\ require_role <> Some "ADMIN")
            \/ rs_role rs = Some "ADMIN")).
Proof. apply author_with_api_key_inv. Qed.

Lemma author_with_api_key_sound_witness :
  exists rs repo' self',
    author_with_api_key Examples.keys_demo true Examples.mysql_demo 0 None
      (Some "key-alice") None init = (Return rs, repo', self')
    /\ rs_user_id rs = "alice"
    /\ rs_organization_id rs = Some "orgO"
    /\ ((rs_role rs = Some "USER" /\ None <> Some "ADMIN")
        \/ rs_role rs = Some "ADMIN").
Proof.
  destruct (author_with_api_key Examples.keys_demo true Examples.mysql_demo 0 None
              (Some "key-alice") None init)
    as [[[rs|code detail] repo'] self'] eqn:Hauth;
    [|vm_compute in Hauth; discriminate].
  destruct (author_with_api_key_sound _ _ _ _ _ _ _ _ _ _ _ Hauth)
    as (key & k & _ & _ & _ & _ & _ & _ & _ & _ & Hrole).
  vm_compute in Hauth. injection Hauth as <- _ _.
  do 3 eexists. split; [reflexivity|]. split; [done|]. split; [done|].
  by apply Hrole.
Defined.


Lemma touch_first_lookup (now : Q) (key key' : string) (keys : list APIKey) :
  head (filter (fun k => k_api_key k = key') (touch_first now key keys))
  = (if decide (key' = key) then
       (fun k => {| k_id := k_id k; k_user_id := k_user_id k;
                    k_organization_id := k_organization_id k;
                    k_api_key := k_api_key k;
                    k_expiry_date := k_expiry_date k;
                    k_is_active := k_is_active k; k_last_used := Some now;
                    k_usage_count := (k_usage_count k + 1)%Z |})
       <$> head (filter (fun k => k_api_key k = key') keys)
     else head (filter (fun k => k_api_key k = key') keys)).
Proof.
  induction keys as [|k keys IH]; [by destruct (decide (key' = key))|].
  cbn [touch_first].
  destruct (decide (k_api_key k = key)) as [Hk|Hk].
  - rewrite !filter_cons. cbn [k_api_key].
    destruct (decide (key' = key)) as [->|Hne].
    + by rewrite !decide_True by done.
    + by rewrite !decide_False by congruence.
  - rewrite !filter_cons.
    destruct (decide (k_api_key k = key')) as [Hk'|Hk'].
    + rewrite decide_False by congruence. done.
    + exact IH.
Qed.

(** The table after [update_api_key_usage] on a key the lookup found. *)
Lemma update_api_key_usage_effect (repo : APIKeyRepository)
    (session_ok : bool) (now : Q) (key : string) (k : APIKey) :
  get_api_key_by_value repo key = Some k ->
  (forall key', key' <> key ->
     get_api_key_by_value (update_api_key_usage repo session_ok now key).2 key'
     = get_api_key_by_value repo key')
  /\ if session_ok && (k_usage_count k + 1 <=? int4_max)%Z then
       exists k',
         get_api_key_by_value
           (update_api_key_usage repo session_ok now key).2 key = Some k'
         /\ k_usage_count k' = (k_usage_count k + 1)%Z
         /\ k_last_used k' = Some now
         /\ k_user_id k' = k_user_id k
         /\ k_is_active k' = k_is_active k
         /\ k_expiry_date k' = k_expiry_date k
     else (update_api_key_usage repo session_ok now key).2 = repo.
Proof.
  intros Hk. pose proof Hk as Hhead. unfold get_api_key_by_value in Hhead.
  destruct (reachable repo) eqn:Hreach; [|done].
  unfold update_api_key_usage. rewrite Hhead.
  destruct session_ok; cbn [andb snd]; [|done].
  destruct (k_usage_count k + 1 <=? int4_max)%Z; cbn [snd]; [|done].
  unfold get_api_key_by_value. cbn [reachable api_keys]. rewrite Hreach.
  split.
  - intros key' Hne. by rewrite touch_first_lookup, decide_False.
  - rewrite touch_first_lookup, decide_True, Hhead by done.
    cbn. eexists. split; [reflexivity|]. done.
Qed.

(** Where [author_with_api_key] leaves the key table. *)
Lemma author_with_api_key_repo (repo repo' : APIKeyRepository)
    (usage_session : bool) (db : MySQL) (now : Q)
    (organization_id api_key require_role : option string)
    (self self' : UserRoleService) (out : outcome RequestState) :
  author_with_api_key repo usage_session db now organization_id api_key
    require_role self
  = (out, repo', self') ->
  match out with
  | HTTPException _ _ => repo' = repo
  | Return _ =>
      exists key k,
        api_key = Some key
        /\ get_api_key_by_value repo key = Some k
        /\ repo' = (update_api_key_usage repo usage_session now key).2
  end.
Proof.
  unfold author_with_api_key.
  destruct api_key as [key|]; [|by intros [= <- <- <-]].
  destruct (get_api_key_by_value repo key) as [k|] eqn:Hk;
    [|by intros [= <- <- <-]].
  destruct (negb (k_is_active k)); [by intros [= <- <- <-]|].
  destruct (match k_expiry_date k with Some e => Qltb e now | None => false end);
    [by intros [= <- <- <-]|].
  destruct (run _ self) as [[user_info|] self1]; [|by intros [= <- <- <-]].
  assert (Hupdate : forall (rs : RequestState) (s : UserRoleService),
    (let '(_, repo1) := update_api_key_usage repo usage_session now key in
     (Return rs, repo1, s)) = (out, repo', self') ->
    match out with
    | HTTPException _ _ => repo' = repo
    | Return _ =>
        exists key0 k0,
          Some key = Some key0
          /\ get_api_key_by_value repo key0 = Some k0
          /\ repo' = (update_api_key_usage repo usage_session now key0).2
    end).
  { intros rs s.
    destruct (update_api_key_usage repo usage_session now key)
      as [answer repo1] eqn:Hupdate.
    intros [= <- <- <-]. exists key, k. by rewrite Hupdate. }
  set (effective := if truthy_opt organization_id then organization_id
                    else k_organization_id k).
  destruct (truthy_opt effective).
  - destruct (bool_decide (the effective ∈ _)).
    + destruct (negb (has_access _ require_role));
        [by intros [= <- <- <-] | apply Hupdate].
    + destruct (verify_organization_exists db now (the effective) self1)
        as [[|] self2]; cbn [negb]; [|by intros [= <- <- <-]].
      destruct (negb (has_access _ require_role));
        [by intros [= <- <- <-] | apply Hupdate].
  - apply Hupdate.
Qed.

(** X28.  [author_with_api_key] and the key table.  A refused request
    leaves it as it was.  An accepted one changes the lookup of no key
    but the presented one; when the session of the usage update
    commits and the counter is below the maximum of its 32-bit column,
    one use is counted on that key and the key is stamped; otherwise
    the failed update is swallowed: the request is accepted all the
    same and the table is as it was. *)
Theorem author_with_api_key_usage (repo repo' : APIKeyRepository)
    (usage_session : bool) (db : MySQL) (now : Q)
    (organization_id api_key require_role : option string)
    (self self' : UserRoleService) (out : outcome RequestState) :
  author_with_api_key repo usage_session db now organization_id api_key
    require_role self
  = (out, repo', self') ->
  match out with
  | HTTPException _ _ => repo' = repo
  | Return _ =>
      exists key k,
        api_key = Some key
        /\ get_api_key_by_value repo key = Some k
        /\ (forall key', key' <> key ->
              get_api_key_by_value repo' key' = get_api_key_by_value repo key')
        /\ if usage_session && (k_usage_count k + 1 <=? int4_max)%Z then
             exists k',
               get_api_key_by_value repo' key = Some k'
               /\ k_usage_count k' = (k_usage_count k + 1)%Z
               /\ k_last_used k' = Some now
               /\ k_user_id k' = k_user_id k
               /\ k_is_active k' = k_is_active k
               /\ k_expiry_date k' = k_expiry_date k
           else repo' = repo
  end.
Proof.
  intros Hauth. apply author_with_api_key_repo in Hauth.
  destruct out as [rs|code detail]; [|done].
  destruct Hauth as (key & k & -> & Hk & ->).
  exists key, k. split; [done|]. split; [done|].
  by apply update_api_key_usage_effect.
Qed.

Lemma author_with_api_key_usage_witness :
  (exists rs repo' self' k',
     author_with_api_key Examples.keys_demo true Examples.mysql_demo 0 None
       (Some "key-alice") None init = (Return rs, repo', self')
     /\ get_api_key_by_value repo' "key-alice" = Some k'
     /\ k_usage_count k' = 1%Z
     /\ k_last_used k' = Some 0%Q)
  /\ (exists rs self',
        author_with_api_key Examples.keys_demo false Examples.mysql_demo 0
          None (Some "key-alice") None init
        = (Return rs, Examples.keys_demo, self'))
  /\ (exists rs self',
        author_with_api_key Examples.keys_full true Examples.mysql_demo 0
          None (Some "key-alice") None init
        = (Return rs, Examples.keys_full, self')).
Proof.
  split; [|split].
  - destruct (author_with_api_key Examples.keys_demo true Examples.mysql_demo
                0 None (Some "key-alice") None init)
      as [[[rs|code detail] repo'] self'] eqn:Hauth;
      [|vm_compute in Hauth; discriminate].
    destruct (author_with_api_key_usage _ _ _ _ _ _ _ _ _ _ _ Hauth)
      as (key & k & [= <-] & [= <-] & _ & Hcounted).
    destruct Hcounted as (k' & Hk' & Hcount & Hused & _).
    by exists rs, repo', self', k'.
  - destruct (author_with_api_key Examples.keys_demo false Examples.mysql_demo
                0 None (Some "key-alice") None init)
      as [[[rs|code detail] repo'] self'] eqn:Hauth;
      [|vm_compute in Hauth; discriminate].
    destruct (author_with_api_key_usage _ _ _ _ _ _ _ _ _ _ _ Hauth)
      as (key & k & [= <-] & [= <-] & _ & ->).
    by exists rs, self'.
  - destruct (author_with_api_key Examples.keys_full true Examples.mysql_demo
                0 None (Some "key-alice") None init)
      as [[[rs|code detail] repo'] self'] eqn:Hauth;
      [|vm_compute in Hauth; discriminate].
    destruct (author_with_api_key_usage _ _ _ _ _ _ _ _ _ _ _ Hauth)
      as (key & k & [= <-] & [= <-] & _ & ->).
    by exists rs, self'.
Defined.

End AuthFacts.

(** ** The retriever route behind the authentication *)
Module RouteFacts.
Import Identity Collections ApiKeyAuth RetrieverRoute PyFacts.

(** X29.  A successful answer of the retriever route, for a request that
    came through [author_with_api_key]: it is the non-empty retrieval
    of a stored collection that is the caller's own, or belongs to the
    organization the caller was admitted to with role USER or ADMIN. *)
Theorem retriever_success_authorised (repo repo' : APIKeyRepository)
    (usage_session : bool) (pg : Postgres) (mysql : MySQL) (now : Q)
    (organization_id_ api_key require_role : option string)
    (self self' : UserRoleService) (rs : RequestState)
    (client : Qdrant.QdrantClient) (reranker : Retrieval.FlagReranker)
    (query : string) (top_k : Z) (name : string)
    (data : list Qdrant.Document) :
  author_with_api_key repo usage_session mysql now organization_id_ api_key
    require_role self = (Return rs, repo', self') ->
  retriever pg mysql now client reranker rs query top_k name = Success data ->
  data <> []
  /\ data = Retrieval.qdrant_retrieval client reranker
              (Retrieval.QueryStr query) top_k name
  /\ exists c,
       first_by_name (vectorstore_collection pg) name = Some c
       /\ if is_personal c then user_id c = rs_user_id rs
          else organization_id c = rs_organization_id rs
               /\ ((rs_role rs = Some "USER" /\ require_role <> Some "ADMIN")
                   \/ rs_role rs = Some "ADMIN").
Proof.
  intros Hauth. unfold retriever.
  destruct (Retrieval.check_collection_access _ _ _ _ _ _ _) eqn:Haccess;
    cbn [negb]; [|done].
  destruct (is_empty _) eqn:Hempty; [done|]. intros [= <-].
  split; [by intros Hnil; rewrite Hnil in Hempty|]. split; [done|].
  unfold Retrieval.check_collection_access, check_collection_permission,
    session_scope in Haccess.
  destruct (available pg); cbn [bind try_except] in Haccess; [|done].
  destruct (first_by_name (vectorstore_collection pg) name) as [c|]; [|done].
  exists c. split; [done|].
  destruct (is_personal c).
  - by apply bool_decide_eq_true in Haccess.
  - destruct (truthy_opt (organization_id c)) eqn:Htruthy;
      cbn [andb] in Haccess; [|done].
    destruct (bool_decide (organization_id c = rs_organization_id rs))
      eqn:Horg; [|done].
    apply bool_decide_eq_true in Horg. split; [done|].
    apply AuthFacts.author_with_api_key_inv in Hauth
      as (key & k & _ & _ & _ & _ & _ & _ & _ & _ & Hrole).
    rewrite <- Horg in Hrole. by apply Hrole.
Qed.

Lemma retriever_success_authorised_witness :
  exists rs repo' self' data,
    author_with_api_key Examples.keys_demo true Examples.mysql_demo 0 None
      (Some "key-alice") None init = (Return rs, repo', self')
    /\ retriever Examples.postgres_demo Examples.mysql_demo 0
         Examples.qdrant_demo Examples.reranker_demo rs "refund" 5 "alpha"
       = Success data
    /\ data <> [].
Proof.
  destruct (author_with_api_key Examples.keys_demo true Examples.mysql_demo 0 None
              (Some "key-alice") None init)
    as [[[rs|code detail] repo'] self'] eqn:Hauth;
    [|vm_compute in Hauth; discriminate].
  destruct (retriever Examples.postgres_demo Examples.mysql_demo 0
              Examples.qdrant_demo Examples.reranker_demo rs "refund" 5
              "alpha") as [|data|] eqn:Hroute.
  - vm_compute in Hauth. injection Hauth as <- _ _.
    vm_compute in Hroute. discriminate.
  - exists rs, repo', self', data. split; [done|]. split; [done|].
    by destruct (retriever_success_authorised _ _ _ _ _ _ _ _ _ _ _ _ _ _
                   _ _ _ _ Hauth Hroute) as [? _].
  - vm_compute in Hauth. injection Hauth as <- _ _.
    vm_compute in Hroute. discriminate.
Defined.

End RouteFacts.
